(** * telegram_bot.py: address validation, lookup and routing

    A shallow embedding of [src/telegram_bot.py] and the properties of its
    validator [is_valid_ip], its lookup [get_ip_info] and its handlers
    [ip_command] and [handle_message].

    Python values are modelled as the code sees them: a [str] is a list of
    Unicode code points, a decoded JSON payload is a [pyval], an exception
    is what the [except] clauses and [str(e)] observe of it, and the
    handlers run in a small monad that records replies and outbound
    requests and carries raised exceptions. *)

From Stdlib Require Import String Ascii.
From Stdlib Require Import List ZArith NArith Lia Bool.
From Stdlib Require Import DecimalString.
Import ListNotations.

Set Warnings "-register-all".

Local Open Scope N_scope.
Local Open Scope list_scope.

(** ** Strings *)

Definition char := N.
Definition str := list char.

(** Literals are written as Rocq strings, which hold the UTF-8 bytes of
    the text; [u] decodes them to code points. *)
Fixpoint utf8_go (need : nat) (acc : N) (bs : list N) : str :=
  match bs with
  | [] => []
  | b :: bs' =>
      match need with
      | O =>
          if b <? 128 then b :: utf8_go 0 0 bs'
          else if b <? 224 then utf8_go 1 (b mod 32) bs'
          else if b <? 240 then utf8_go 2 (b mod 16) bs'
          else utf8_go 3 (b mod 8) bs'
      | S O => (acc * 64 + b mod 64) :: utf8_go 0 0 bs'
      | S n => utf8_go n (acc * 64 + b mod 64) bs'
      end
  end.

Definition u (s : string) : str :=
  utf8_go 0 0 (map N_of_ascii (list_ascii_of_string s)).

Definition nl : char := 10.
Definition dot : char := 46.

Fixpoint str_eqb (a b : str) : bool :=
  match a, b with
  | [], [] => true
  | x :: a', y :: b' => (x =? y) && str_eqb a' b'
  | _, _ => false
  end.

Fixpoint starts_with (p s : str) : bool :=
  match p, s with
  | [], _ => true
  | x :: p', y :: s' => (x =? y) && starts_with p' s'
  | _ :: _, [] => false
  end.

(** [p in s] for two strings. *)
Fixpoint str_contains (p s : str) : bool :=
  starts_with p s ||
  match s with
  | [] => false
  | _ :: s' => str_contains p s'
  end.

(** Number of positions of [s] at which [p] occurs. *)
Fixpoint occurrences (p s : str) : nat :=
  match s with
  | [] => 0%nat
  | _ :: s' => ((if starts_with p s then 1 else 0) + occurrences p s')%nat
  end.

(** [str.isspace] of one character, the set [str.strip()] removes. *)
Definition is_space (c : char) : bool :=
  ((9 <=? c) && (c <=? 13)) || ((28 <=? c) && (c <=? 32))
  || (c =? 133) || (c =? 160) || (c =? 5760)
  || ((8192 <=? c) && (c <=? 8202))
  || (c =? 8232) || (c =? 8233) || (c =? 8239) || (c =? 8287)
  || (c =? 12288).

Fixpoint lstrip (s : str) : str :=
  match s with
  | c :: t => if is_space c then lstrip t else s
  | [] => []
  end.

Definition strip (s : str) : str := rev (lstrip (rev (lstrip s))).

(** [s.split(sep)] for a one-character separator. *)
Fixpoint split (sep : char) (s : str) : list str :=
  match s with
  | [] => [[]]
  | c :: t =>
      if c =? sep then [] :: split sep t
      else match split sep t with
           | p :: ps => (c :: p) :: ps
           | [] => [[c]]
           end
  end.

(** ** Values and exceptions *)

(** What [response.json()] can return.  A float is carried by its [repr],
    the only thing the code asks of it; a dict keeps its items in order. *)
Inductive pyval :=
| PNone
| PBool (b : bool)
| PInt (z : Z)
| PFloat (repr : str)
| PStr (s : str)
| PList (l : list pyval)
| PDict (items : list (str * pyval)).

(** An exception, as the handlers of [get_ip_info] see it: whether it is an
    instance of [requests.exceptions.ConnectionError], whether it is an
    instance of [requests.exceptions.Timeout], and its [str(e)].  Only
    instances of [Exception] are modelled. *)
Record exn := {
  is_ConnectionError : bool;
  is_Timeout : bool;
  exn_str : str
}.

(** The classes of [requests.exceptions]: [ConnectTimeout] inherits from
    both [ConnectionError] and [Timeout], [ReadTimeout] from [Timeout]. *)
Definition ConnectionError (msg : str) : exn :=
  {| is_ConnectionError := true; is_Timeout := false; exn_str := msg |}.
Definition ConnectTimeout (msg : str) : exn :=
  {| is_ConnectionError := true; is_Timeout := true; exn_str := msg |}.
Definition ReadTimeout (msg : str) : exn :=
  {| is_ConnectionError := false; is_Timeout := true; exn_str := msg |}.
Definition OtherException (msg : str) : exn :=
  {| is_ConnectionError := false; is_Timeout := false; exn_str := msg |}.

Inductive result (A : Type) :=
| Ok (a : A)
| Raise (e : exn).
Arguments Ok {A} a.
Arguments Raise {A} e.

(** Errors raised by the interpreter itself. *)
Inductive builtin_error :=
| InvalidIntLiteral (s : str)
| MissingKey (k : str)
| NotSubscriptable (v : pyval)
| NotContainer (v : pyval)
| NoAttributeGet (v : pyval).

(** The parts of the interpreter the code relies on and the source does
    not fix: the non-ASCII decimal digits of its Unicode database, given
    by the code point of the zero of each run of ten, the [repr] of lists
    and dicts, and the text of its own error messages. *)
Record interp := {
  nd_zeros : list N;
  container_repr : pyval -> str;
  error_text : builtin_error -> str
}.

Section Interp.

Variable rt : interp.

Definition builtin (b : builtin_error) : exn :=
  OtherException (error_text rt b).

(** ** Decimal digits and [int] *)

Fixpoint nd_lookup (zeros : list N) (c : char) : option N :=
  match zeros with
  | [] => None
  | z :: zs =>
      if (z <=? c) && (c <? z + 10) then Some (c - z) else nd_lookup zs c
  end.

(** The decimal value of a character of category Nd. *)
Definition decimal (c : char) : option N :=
  if c <? 128 then
    if (48 <=? c) && (c <=? 57) then Some (c - 48) else None
  else nd_lookup (nd_zeros rt) c.

Definition is_decimal (c : char) : bool :=
  match decimal c with Some _ => true | None => false end.

(** How [int] reads one character: ASCII is taken as it is, where only
    tab, newline, vertical tab, form feed, carriage return and space are
    blank; other characters are blank when [is_space] and digits when
    decimal. *)
Inductive int_char :=
| IDigit (v : N)
| ISpace
| IPlus
| IMinus
| IUnderscore
| IBad.

Definition int_class (c : char) : int_char :=
  if c <? 127 then
    if ((9 <=? c) && (c <=? 13)) || (c =? 32) then ISpace
    else if c =? 43 then IPlus
    else if c =? 45 then IMinus
    else if c =? 95 then IUnderscore
    else if (48 <=? c) && (c <=? 57) then IDigit (c - 48)
    else IBad
  else if is_space c then ISpace
  else match decimal c with
       | Some v => IDigit v
       | None => IBad
       end.

Fixpoint drop_blank (l : list int_char) : list int_char :=
  match l with
  | ISpace :: t => drop_blank t
  | _ => l
  end.

(** Digits, with single underscores allowed between two digits. *)
Fixpoint int_digits (acc : N) (after_digit : bool) (l : list int_char)
  : option N :=
  match l with
  | [] => if after_digit then Some acc else None
  | IDigit v :: t => int_digits (10 * acc + v) true t
  | IUnderscore :: t => if after_digit then int_digits acc false t else None
  | _ => None
  end.

(** [int(s)] for a string [s]: [ValueError] unless [s] is blanks, an
    optional sign, digits, blanks.  The bound that recent interpreters
    put on the number of digits is left out: the strings read here have
    at most four characters. *)
Definition py_int (s : str) : result Z :=
  let body := rev (drop_blank (rev (drop_blank (map int_class s)))) in
  let signed :=
    match body with
    | IPlus :: t => (false, t)
    | IMinus :: t => (true, t)
    | _ => (false, body)
    end in
  match int_digits 0 false (snd signed) with
  | Some n => Ok (if fst signed then (- Z.of_N n)%Z else Z.of_N n)
  | None => Raise (builtin (InvalidIntLiteral s))
  end.

(** ** Regular expressions *)

(** The fragment of [re] syntax that [ipv4_pattern] uses. *)
Inductive regex :=
| Bol                                (* ^ *)
| Eol                                (* $ *)
| Digit                              (* \d *)
| Lit (c : char)                     (* an escaped character *)
| Seq (r1 r2 : regex)
| Rep (r : regex) (lo hi : nat).     (* r{lo,hi} *)

(** Backtracking matcher in continuation-passing style: [mt r k pos s]
    holds when [r] matches a prefix of [s], the rest of the subject at
    position [pos], and [k] accepts what follows.  Without flags [^]
    matches at the start of the subject only, [$] at its end and before a
    newline that ends it, and [\d] any decimal digit. *)
Fixpoint mt (r : regex) (k : nat -> str -> bool) (pos : nat) (s : str)
  : bool :=
  match r with
  | Bol => Nat.eqb pos 0 && k pos s
  | Eol =>
      match s with
      | [] => k pos s
      | [c] => (c =? nl) && k pos s
      | _ => false
      end
  | Digit =>
      match s with
      | c :: t => is_decimal c && k (S pos) t
      | [] => false
      end
  | Lit a =>
      match s with
      | c :: t => (c =? a) && k (S pos) t
      | [] => false
      end
  | Seq r1 r2 => mt r1 (mt r2 k) pos s
  | Rep r1 lo hi =>
      (fix rep (n lo : nat) (pos : nat) (s : str) {struct n} : bool :=
         match n with
         | O => false
         | S n' => mt r1 (rep n' (Nat.pred lo)) pos s
         end
         || (Nat.eqb lo 0 && k pos s)) hi lo pos s
  end.

(** [re.match(pattern, s)], as a truth value. *)
Definition re_match (pattern : regex) (s : str) : bool :=
  mt pattern (fun _ _ => true) 0%nat s.

(** ** [is_valid_ip] *)

(** [r'^(\d{1,3}\.){3}\d{1,3}$'] *)
Definition ipv4_pattern : regex :=
  Seq Bol
    (Seq (Rep (Seq (Rep Digit 1 3) (Lit dot)) 3 3)
       (Seq (Rep Digit 1 3) Eol)).

(** [all(0 <= int(part) <= 255 for part in parts)]: the parts are read in
    order, the first one out of range ends the iteration, and a part that
    [int] refuses raises. *)
Fixpoint all_octets (parts : list str) : result bool :=
  match parts with
  | [] => Ok true
  | part :: rest =>
      match py_int part with
      | Raise e => Raise e
      | Ok v => if (0 <=? v)%Z && (v <=? 255)%Z then all_octets rest
                else Ok false
      end
  end.

Definition is_valid_ip (ip : str) : result bool :=
  if re_match ipv4_pattern ip then
    let parts := split dot ip in
    match all_octets parts with
    | Raise e => Raise e
    | Ok true => Ok true
    | Ok false => Ok false
    end
  else Ok false.

(** [str(z)] for an integer. *)
Definition str_of_Z (z : Z) : str :=
  u (NilZero.string_of_int (Z.to_int z)).

(** [format(v, '')], what an f-string writes for [{v}]. *)
Definition py_str (v : pyval) : str :=
  match v with
  | PNone => u "None"
  | PBool true => u "True"
  | PBool false => u "False"
  | PInt z => str_of_Z z
  | PFloat repr => repr
  | PStr s => s
  | PList _ | PDict _ => container_repr rt v
  end.

Fixpoint dict_lookup (k : str) (items : list (str * pyval)) : option pyval :=
  match items with
  | [] => None
  | (k', v) :: rest => if str_eqb k' k then Some v else dict_lookup k rest
  end.

(** [data[k]] *)
Definition subscript (data : pyval) (k : str) : result pyval :=
  match data with
  | PDict items =>
      match dict_lookup k items with
      | Some v => Ok v
      | None => Raise (builtin (MissingKey k))
      end
  | _ => Raise (builtin (NotSubscriptable data))
  end.

(** [k in data] for a string [k]: a key of a dict, an element of a list,
    a substring of a string. *)
Definition py_in (k : str) (data : pyval) : result bool :=
  match data with
  | PDict items =>
      Ok (match dict_lookup k items with Some _ => true | None => false end)
  | PList l =>
      Ok (existsb (fun v => match v with
                            | PStr s => str_eqb s k
                            | _ => false
                            end) l)
  | PStr s => Ok (str_contains k s)
  | _ => Raise (builtin (NotContainer data))
  end.

(** [data.get(k, default)] *)
Definition py_get (data : pyval) (k : str) (default : pyval) : result pyval :=
  match data with
  | PDict items =>
      Ok (match dict_lookup k items with Some v => v | None => default end)
  | _ => Raise (builtin (NoAttributeGet data))
  end.

(** ** Effects *)

(** What a handler does to the outside: a GET through [requests], a reply
    through the transport, a line written to the error log. *)
Inductive event :=
| Get (url : str) (timeout : N)
| Reply (text : str) (parse_mode : option str)
| LogError (msg : str).

(** A response: all the code asks of it is [response.json()]. *)
Record response := { json : result pyval }.

(** The network: what [requests.get] gives for a URL, given all that
    happened before. *)
Variable net : list event -> str -> result response.

(** A computation takes the events so far and gives a value or a raised
    exception, with the events extended. *)
Definition M (A : Type) : Type := list event -> result A * list event.

Definition ret {A} (a : A) : M A := fun h => (Ok a, h).

Definition bind {A B} (m : M A) (f : A -> M B) : M B :=
  fun h =>
    match m h with
    | (Ok a, h') => f a h'
    | (Raise e, h') => (Raise e, h')
    end.

Definition lift {A} (r : result A) : M A := fun h => (r, h).

Definition emit (e : event) : M unit := fun h => (Ok tt, h ++ [e]).

Definition try_except {A} (body : M A) (handler : exn -> M A) : M A :=
  fun h =>
    match body h with
    | (Ok a, h') => (Ok a, h')
    | (Raise e, h') => handler e h'
    end.

Notation "x <- m ;; k" := (bind m (fun x => k))
  (at level 61, m at next level, right associativity).
Notation "m ;; k" := (bind m (fun _ => k))
  (at level 61, right associativity).

Definition requests_get (url : str) (timeout : N) : M response :=
  fun h => (net h url, h ++ [Get url timeout]).

Definition reply_text (text : str) (parse_mode : option str) : M unit :=
  emit (Reply text parse_mode).

Definition logger_error (msg : str) : M unit := emit (LogError msg).

(** ** [get_ip_info] *)

Definition NA : pyval := PStr (u "N/A").

Definition ipify_url : str := u "https://api.ipify.org?format=json".

Definition ipapi_url (ip_address : pyval) : str :=
  u "https://ipapi.co/" ++ py_str ip_address ++ u "/json/".

(** The f-string of the successful branch, its replacement fields already
    formatted. *)
Definition info_text
  (ip country region city provider organization latitude longitude
     timezone : str) : str :=
  [nl]
  ++ u "📍 *Информация об IP-адресе:*" ++ [nl]
  ++ [nl]
  ++ u "• 🆔 *IP:* `" ++ ip ++ u "`" ++ [nl]
  ++ u "• 🏳️ *Страна:* " ++ country ++ [nl]
  ++ u "• 📍 *Регион:* " ++ region ++ [nl]
  ++ u "• 🏙️ *Город:* " ++ city ++ [nl]
  ++ u "• 📡 *Провайдер:* " ++ provider ++ [nl]
  ++ u "• 🌐 *Организация:* " ++ organization ++ [nl]
  ++ u "• 📍 *Координаты:* " ++ latitude ++ u ", " ++ longitude ++ [nl]
  ++ u "• 🕐 *Часовой пояс:* " ++ timezone ++ [nl]
  ++ u "            ".

(** [f"{data.get(k, 'N/A')}"] *)
Definition field (data : pyval) (k : string) : M str :=
  v <- lift (py_get data (u k) NA) ;;
  ret (py_str v).

Definition remote_error_text (ip_address : pyval) : str :=
  u "❌ Ошибка: Не удалось получить информацию об IP " ++ py_str ip_address.

Definition connection_text : str :=
  u "❌ Ошибка соединения. Пожалуйста, проверьте подключение к интернету.".

Definition timeout_text : str :=
  u "⏰ Таймаут запроса. Сервер не ответил вовремя.".

Definition unknown_text (e : exn) : str :=
  u "⚠️ Произошла ошибка: " ++ exn_str e.

(** [not ip_address or ip_address == ''] for a string. *)
Definition no_address (ip_address : str) : bool :=
  negb (match ip_address with [] => false | _ :: _ => true end)
  || str_eqb ip_address [].

(** Lines 60-63: the address the lookup works with, the caller's own
    public address when none is given. *)
Definition working_address (ip_address : str) : M pyval :=
  if no_address ip_address then
    response <- requests_get ipify_url 10 ;;
    payload <- lift (json response) ;;
    lift (subscript payload (u "ip"))
  else ret (PStr ip_address).

(** Lines 66-67: the geolocation payload of an address. *)
Definition geolocate (ip_address : pyval) : M pyval :=
  response <- requests_get (ipapi_url ip_address) 10 ;;
  lift (json response).

(** Lines 69-84: the text for a payload. *)
Definition render (ip_address data : pyval) : M str :=
  has_error <- lift (py_in (u "error") data) ;;
  if negb has_error then
    ip <- field data "ip" ;;
    country <- field data "country_name" ;;
    region <- field data "region" ;;
    city <- field data "city" ;;
    provider <- field data "org" ;;
    organization <- field data "org" ;;
    latitude <- field data "latitude" ;;
    longitude <- field data "longitude" ;;
    timezone <- field data "timezone" ;;
    ret (info_text ip country region city provider organization
           latitude longitude timezone)
  else ret (remote_error_text ip_address).

(** The body of the [try]. *)
Definition lookup (ip_address : str) : M str :=
  ip_address <- working_address ip_address ;;
  data <- geolocate ip_address ;;
  render ip_address data.

(** The [except] clauses, tried in the order they are written. *)
Definition on_error (e : exn) : M str :=
  if is_ConnectionError e then ret connection_text
  else if is_Timeout e then ret timeout_text
  else
    logger_error (u "Error getting IP info: " ++ exn_str e) ;;
    ret (unknown_text e).

Definition get_ip_info (ip_address : str) : M str :=
  try_except (lookup ip_address) on_error.

(** ** Handlers *)

Definition join_lines (ls : list str) : str :=
  match ls with
  | [] => []
  | l :: rest => l ++ flat_map (fun x => nl :: x) rest
  end.

Definition welcome_text : str :=
  join_lines
    [ u "";
      u "👋 Привет! Я бот для получения информации об IP-адресах.";
      u "";
      u "📍 Отправьте мне IP-адрес, и я покажу информацию о нем.";
      u "";
      u "Примеры использования:";
      u "• Просто отправьте IP-адрес: `8.8.8.8`";
      u "• Или используйте команду: `/ip 8.8.8.8`";
      u "";
      u "📍 Если не указать IP, проверю ваш текущий адрес.";
      u "    " ].

Definition help_text : str :=
  join_lines
    [ u "";
      u "📋 Доступные команды:";
      u "";
      u "/start - Начать работу с ботом";
      u "/help - Показать это сообщение";
      u "/ip [адрес] - Получить информацию об IP-адресе";
      u "";
      u "📌 Просто отправьте IP-адрес сообщением для получения информации.";
      u "";
      u "Примеры:";
      u "`8.8.8.8` - информация об адресе Google DNS";
      u "`/ip 1.1.1.1` - информация об адресе Cloudflare";
      u "    " ].

Definition fetching_text : str := u "🔄 Получаю информацию...".
Definition detecting_text : str := u "🔍 Определяю ваш IP-адрес...".

Definition guidance_text : str :=
  u "🤔 Это не похоже на IP-адрес." ++ [nl; nl]
  ++ u "📌 Отправьте IP-адрес в формате: `8.8.8.8`" ++ [nl]
  ++ u "📌 Или используйте команду: `/ip 8.8.8.8`".

Definition Markdown : option str := Some (u "Markdown").

Definition start : M unit := reply_text welcome_text None.

Definition help_command : M unit := reply_text help_text None.

(** [args] is [context.args]. *)
Definition ip_command (args : list str) : M unit :=
  match args with
  | ip_address :: _ =>
      reply_text fetching_text None ;;
      result <- get_ip_info ip_address ;;
      reply_text result Markdown
  | [] =>
      reply_text detecting_text None ;;
      result <- get_ip_info [] ;;
      reply_text result Markdown
  end.

(** [text] is [update.message.text]. *)
Definition handle_message (text : str) : M unit :=
  let user_message := strip text in
  valid <- lift (is_valid_ip user_message) ;;
  if valid then
    reply_text fetching_text None ;;
    result <- get_ip_info user_message ;;
    reply_text result Markdown
  else reply_text guidance_text Markdown.

(** The outbound requests among the events. *)
Fixpoint requests (h : list event) : list str :=
  match h with
  | [] => []
  | Get url _ :: h' => url :: requests h'
  | _ :: h' => requests h'
  end.

Fixpoint replies (h : list event) : list str :=
  match h with
  | [] => []
  | Reply text _ :: h' => text :: replies h'
  | _ :: h' => replies h'
  end.

End Interp.

(** ** Specification side *)

(** *** Well-formed candidates *)

Definition digit_value (rt : interp) (c : char) : N :=
  match decimal rt c with Some v => v | None => 0 end.

Definition digit_values (rt : interp) (g : str) : list N :=
  map (digit_value rt) g.

(** The number a group of digits denotes. *)
Definition group_value (rt : interp) (g : str) : N :=
  fold_left (fun acc c => 10 * acc + digit_value rt c) g 0.

(** One to three decimal digits. *)
Definition digits13 (rt : interp) (g : str) : Prop :=
  (1 <= length g <= 3)%nat /\ forallb (is_decimal rt) g = true.

(** One to three decimal digits that denote a number of [0,255]. *)
Definition octet (rt : interp) (g : str) : Prop :=
  digits13 rt g /\ group_value rt g <= 255.

(** ['.'.join(gs)] *)
Definition dotted (gs : list str) : str :=
  match gs with
  | [] => []
  | g :: rest => g ++ flat_map (fun x => dot :: x) rest
  end.

(** What [ipv4_pattern] matches: four groups of digits between dots, and
    possibly one newline after them. *)
Definition ipv4_shape (rt : interp) (s : str) : Prop :=
  exists g1 g2 g3 g4 tail,
    s = g1 ++ dot :: g2 ++ dot :: g3 ++ dot :: g4 ++ tail
    /\ digits13 rt g1 /\ digits13 rt g2 /\ digits13 rt g3 /\ digits13 rt g4
    /\ (tail = [] \/ tail = [nl]).

(** What [is_valid_ip] accepts. *)
Definition valid_candidate (rt : interp) (s : str) : Prop :=
  exists g1 g2 g3 g4 tail,
    s = g1 ++ dot :: g2 ++ dot :: g3 ++ dot :: g4 ++ tail
    /\ octet rt g1 /\ octet rt g2 /\ octet rt g3 /\ octet rt g4
    /\ (tail = [] \/ tail = [nl]).

(** No decimal digit of the table is a blank, as in every Unicode
    database. *)
Definition nd_wf (rt : interp) : bool :=
  forallb
    (fun z =>
       forallb (fun i => (z + i <? 128) || negb (is_space (z + i)))
         [0; 1; 2; 3; 4; 5; 6; 7; 8; 9])
    (nd_zeros rt).

(** *** Lookups *)

(** The fields of a payload that the reply shows. *)
Definition geo_fields : list string :=
  ["ip"; "country_name"; "region"; "city"; "org"; "latitude"; "longitude";
   "timezone"]%string.

(** What the reply shows for field [k] of a payload. *)
Definition slot (rt : interp) (items : list (str * pyval)) (k : string)
  : str :=
  match dict_lookup (u k) items with
  | Some v => py_str rt v
  | None => u "N/A"
  end.

(** The message for a failure of the lookup. *)
Definition error_message (e : exn) : str :=
  if is_ConnectionError e then connection_text
  else if is_Timeout e then timeout_text
  else unknown_text e.

(** The text of the last reply. *)
Definition final_reply (h : list event) : option str :=
  match rev (replies h) with
  | text :: _ => Some text
  | [] => None
  end.

(** *** Examples of interpreters and networks *)

Definition sample_error_text (b : builtin_error) : str :=
  match b with
  | InvalidIntLiteral _ => u "invalid literal for int() with base 10"
  | MissingKey k => u "'" ++ k ++ u "'"
  | NotSubscriptable _ => u "object is not subscriptable"
  | NotContainer _ => u "argument is not iterable"
  | NoAttributeGet _ => u "object has no attribute 'get'"
  end.

(** An interpreter whose database has the Arabic-Indic, Devanagari and
    fullwidth digits. *)
Definition sample_interp : interp :=
  {| nd_zeros := [1632; 1776; 2406; 65296];
     container_repr := fun _ => u "[...]";
     error_text := sample_error_text |}.

(** A network that answers the listed URLs and refuses every other
    connection. *)
Fixpoint mock (table : list (str * result response))
  (h : list event) (url : str) : result response :=
  match table with
  | [] => Raise (ConnectionError (u "connection refused"))
  | (url', r) :: rest => if str_eqb url' url then r else mock rest h url
  end.

Definition google_dns : str := u "8.8.8.8".

Definition google_url : str := u "https://ipapi.co/8.8.8.8/json/".

Definition google_items : list (str * pyval) :=
  [ (u "ip", PStr (u "8.8.8.8"));
    (u "country_name", PStr (u "United States"));
    (u "city", PStr (u "Mountain View"));
    (u "org", PStr (u "Google LLC"));
    (u "latitude", PFloat (u "37.4"));
    (u "longitude", PFloat (u "-122.1"));
    (u "timezone", PStr (u "America/Los_Angeles")) ].

Definition google_payload : pyval := PDict google_items.

Definition google_values : list str :=
  [ u "8.8.8.8"; u "United States"; u "Mountain View"; u "Google LLC";
    u "37.4"; u "-122.1"; u "America/Los_Angeles" ].

Definition google_net : list event -> str -> result response :=
  mock [ (google_url, Ok {| json := Ok google_payload |}) ].

(** The same payload without its city. *)
Definition google_items_no_city : list (str * pyval) :=
  [ (u "ip", PStr (u "8.8.8.8"));
    (u "country_name", PStr (u "United States"));
    (u "org", PStr (u "Google LLC"));
    (u "latitude", PFloat (u "37.4"));
    (u "longitude", PFloat (u "-122.1"));
    (u "timezone", PStr (u "America/Los_Angeles")) ].

Definition no_city_net : list event -> str -> result response :=
  mock [ (google_url, Ok {| json := Ok (PDict google_items_no_city) |}) ].

(** The service refuses an address. *)
Definition refused_payload : pyval :=
  PDict [ (u "error", PBool true); (u "reason", PStr (u "Invalid IP")) ].

Definition refusing_net : list event -> str -> result response :=
  mock [ (u "https://ipapi.co/999.1.1.1/json/",
          Ok {| json := Ok refused_payload |}) ].

(** Self-discovery answers, the geolocation service refuses. *)
Definition discovering_net : list event -> str -> result response :=
  mock [ (ipify_url,
          Ok {| json := Ok (PDict [ (u "ip", PStr (u "203.0.113.7")) ]) |});
         (u "https://ipapi.co/203.0.113.7/json/",
          Ok {| json := Ok refused_payload |}) ].

(** Every request runs out of time. *)
Definition read_timeout_net : list event -> str -> result response :=
  fun _ _ => Raise (ReadTimeout (u "Read timed out."))%string.

(** Every connection attempt runs out of time. *)
Definition connect_timeout_net : list event -> str -> result response :=
  fun _ _ => Raise (ConnectTimeout (u "Connection timed out."))%string.

(** The lines written to the error log among the events. *)
Fixpoint logs (h : list event) : list str :=
  match h with
  | [] => []
  | LogError msg :: h' => msg :: logs h'
  | _ :: h' => logs h'
  end.

(** What the [except] clauses write to the log for an exception: nothing
    for a connection error or a timeout. *)
Definition error_log (e : exn) : list event :=
  if is_ConnectionError e || is_Timeout e then []
  else [LogError (u "Error getting IP info: " ++ exn_str e)].

(** Self-discovery answers with an object that has no [ip]. *)
Definition no_ip_net : list event -> str -> result response :=
  mock [ (ipify_url,
          Ok {| json := Ok (PDict [ (u "origin", PStr (u "203.0.113.7")) ])
             |}) ].

(** The geolocation service answers with a list. *)
Definition list_payload_net : list event -> str -> result response :=
  mock [ (google_url,
          Ok {| json := Ok (PList [ PStr (u "unexpected") ]) |}) ].

(** The payload of the example with fields the reply does not show. *)
Definition google_items_more : list (str * pyval) :=
  (u "asn", PStr (u "AS15169")) :: (u "postal", PNone) :: google_items.

Definition verbose_net : list event -> str -> result response :=
  mock [ (google_url, Ok {| json := Ok (PDict google_items_more) |}) ].

Ltac bools :=
  repeat match goal with
    | H : _ && _ = true |- _ => apply andb_prop in H; destruct H
    | H : (_ =? _) = true |- _ => apply N.eqb_eq in H
    | H : (_ =? _) = false |- _ => apply N.eqb_neq in H
    | H : (_ <=? _) = true |- _ => apply N.leb_le in H
    | H : (_ <=? _) = false |- _ => apply N.leb_gt in H
    | H : (_ <? _) = true |- _ => apply N.ltb_lt in H
    | H : (_ <? _) = false |- _ => apply N.ltb_ge in H
    end.

(** * Properties *)

(** ** The validator *)

Section Validator.

Variable rt : interp.

Lemma mt_digits13 k pos s :
  mt rt (Rep Digit 1 3) k pos s = true <->
  exists g rest,
    s = g ++ rest /\ digits13 rt g /\ k (length g + pos)%nat rest = true.
Proof.
  simpl. rewrite orb_false_r. split.
  - destruct s as [|c1 t1]; [discriminate|]. intros H.
    apply andb_prop in H as [H1 H]. apply orb_prop in H as [H|H].
    + destruct t1 as [|c2 t2]; [discriminate|].
      apply andb_prop in H as [H2 H]. apply orb_prop in H as [H|H].
      * destruct t2 as [|c3 t3]; [discriminate|].
        apply andb_prop in H as [H3 H].
        exists [c1; c2; c3], t3. unfold digits13. simpl.
        rewrite H1, H2, H3. repeat split; auto; lia.
      * exists [c1; c2], t2. unfold digits13. simpl.
        rewrite H1, H2. repeat split; auto; lia.
    + exists [c1], t1. unfold digits13. simpl.
      rewrite H1. repeat split; auto; lia.
  - intros (g & rest & -> & [[Hl1 Hl2] Hd] & Hk).
    destruct g as [|c1 [|c2 [|c3 [|c4 g]]]]; simpl in *; try lia;
      repeat (apply andb_prop in Hd as [?H Hd]);
      repeat match goal with H : is_decimal rt _ = true |- _ =>
               rewrite H; clear H end;
      simpl; rewrite Hk; rewrite ?orb_true_r; reflexivity.
Qed.

Lemma mt_group k pos s :
  mt rt (Seq (Rep Digit 1 3) (Lit dot)) k pos s = true <->
  exists g rest,
    s = g ++ dot :: rest /\ digits13 rt g
    /\ k (S (length g + pos)) rest = true.
Proof.
  change (mt rt (Seq (Rep Digit 1 3) (Lit dot)) k pos s)
    with (mt rt (Rep Digit 1 3) (mt rt (Lit dot) k) pos s).
  rewrite mt_digits13. split.
  - intros (g & rest & -> & Hg & Hk). simpl in Hk.
    destruct rest as [|c rest]; [discriminate|].
    apply andb_prop in Hk as [Hc Hk]. apply N.eqb_eq in Hc. subst c.
    exists g, rest. auto.
  - intros (g & rest & -> & Hg & Hk).
    exists g, (dot :: rest). repeat split; try apply Hg.
    simpl. exact Hk.
Qed.

Lemma mt_eol k pos s :
  mt rt Eol k pos s = true <-> (s = [] \/ s = [nl]) /\ k pos s = true.
Proof.
  simpl. destruct s as [|c [|c' t]].
  - intuition.
  - split.
    + intros H. apply andb_prop in H as [Hc Hk]. apply N.eqb_eq in Hc.
      subst. auto.
    + intros [[H|H] Hk]; [discriminate|]. injection H as ->.
      rewrite Hk. reflexivity.
  - split; [discriminate|]. intros [[H|H] _]; discriminate.
Qed.

Lemma mt_seq r1 r2 k pos s :
  mt rt (Seq r1 r2) k pos s = mt rt r1 (mt rt r2 k) pos s.
Proof. reflexivity. Qed.

Lemma mt_bol k s : mt rt Bol k 0%nat s = k 0%nat s.
Proof. reflexivity. Qed.

Lemma mt_rep33 r k pos s :
  mt rt (Rep r 3 3) k pos s =
  mt rt r
    (fun p1 s1 =>
       mt rt r (fun p2 s2 => mt rt r (fun p3 s3 => k p3 s3) p2 s2 || false)
         p1 s1 || false) pos s || false.
Proof. reflexivity. Qed.

Lemma re_match_ipv4 s :
  re_match rt ipv4_pattern s = true <-> ipv4_shape rt s.
Proof.
  unfold re_match, ipv4_pattern, ipv4_shape.
  rewrite mt_seq, mt_bol, mt_seq, mt_rep33, orb_false_r. split.
  - intros H.
    apply mt_group in H as (g1 & r1 & -> & Hg1 & H).
    rewrite orb_false_r in H.
    apply mt_group in H as (g2 & r2 & -> & Hg2 & H).
    rewrite orb_false_r in H.
    apply mt_group in H as (g3 & r3 & -> & Hg3 & H).
    rewrite mt_seq in H.
    apply mt_digits13 in H as (g4 & tail & -> & Hg4 & H).
    apply mt_eol in H as [Ht _].
    exists g1, g2, g3, g4, tail. auto 10.
  - intros (g1 & g2 & g3 & g4 & tail & -> & Hg1 & Hg2 & Hg3 & Hg4 & Ht).
    apply mt_group. exists g1, (g2 ++ dot :: g3 ++ dot :: g4 ++ tail).
    repeat split; try apply Hg1. rewrite orb_false_r.
    apply mt_group. exists g2, (g3 ++ dot :: g4 ++ tail).
    repeat split; try apply Hg2. rewrite orb_false_r.
    apply mt_group. exists g3, (g4 ++ tail).
    repeat split; try apply Hg3. rewrite mt_seq.
    apply mt_digits13. exists g4, tail.
    repeat split; try apply Hg4.
    apply mt_eol. auto.
Qed.

(** *** [split] on a matched subject *)

Lemma decimal_not_dot c : is_decimal rt c = true -> (c =? dot) = false.
Proof.
  intros H. destruct (N.eqb_spec c dot) as [->|]; [|reflexivity].
  discriminate H.
Qed.

Lemma split_nonempty sep s : split sep s <> [].
Proof.
  destruct s as [|c t]; simpl; [discriminate|].
  destruct (c =? sep); [discriminate|].
  destruct (split sep t); discriminate.
Qed.

Lemma split_group g rest :
  forallb (is_decimal rt) g = true ->
  split dot (g ++ dot :: rest) = g :: split dot rest.
Proof.
  induction g as [|c g IH]; intros H.
  - reflexivity.
  - simpl in H. apply andb_prop in H as [Hc Hg].
    change (split dot ((c :: g) ++ dot :: rest))
      with (if c =? dot then [] :: split dot (g ++ dot :: rest)
            else match split dot (g ++ dot :: rest) with
                 | p :: ps => (c :: p) :: ps
                 | [] => [[c]]
                 end).
    rewrite (decimal_not_dot _ Hc), (IH Hg). reflexivity.
Qed.

Lemma split_last g tail :
  forallb (is_decimal rt) g = true ->
  tail = [] \/ tail = [nl] ->
  split dot (g ++ tail) = [g ++ tail].
Proof.
  intros Hg Ht. induction g as [|c g IH].
  - destruct Ht as [->| ->]; reflexivity.
  - simpl in Hg. apply andb_prop in Hg as [Hc Hg].
    change (split dot ((c :: g) ++ tail))
      with (if c =? dot then [] :: split dot (g ++ tail)
            else match split dot (g ++ tail) with
                 | p :: ps => (c :: p) :: ps
                 | [] => [[c]]
                 end).
    rewrite (decimal_not_dot _ Hc), (IH Hg). reflexivity.
Qed.

Lemma split_shape g1 g2 g3 g4 tail :
  digits13 rt g1 -> digits13 rt g2 -> digits13 rt g3 -> digits13 rt g4 ->
  tail = [] \/ tail = [nl] ->
  split dot (g1 ++ dot :: g2 ++ dot :: g3 ++ dot :: g4 ++ tail)
  = [g1; g2; g3; g4 ++ tail].
Proof.
  intros [_ H1] [_ H2] [_ H3] [_ H4] Ht.
  rewrite (split_group _ _ H1), (split_group _ _ H2), (split_group _ _ H3).
  rewrite (split_last _ _ H4 Ht). reflexivity.
Qed.

(** *** [int] on a group of digits *)

Hypothesis wf : nd_wf rt = true.

Lemma nd_lookup_in zeros c v :
  nd_lookup zeros c = Some v ->
  exists z, In z zeros /\ z <= c < z + 10 /\ v = c - z.
Proof.
  induction zeros as [|z zs IH]; simpl; [discriminate|].
  destruct ((z <=? c) && (c <? z + 10)) eqn:E.
  - intros [= <-]. apply andb_prop in E as [E1 E2].
    apply N.leb_le in E1. apply N.ltb_lt in E2.
    exists z. split; [left; reflexivity|]. split; [split; assumption|].
    reflexivity.
  - intros H. destruct (IH H) as (z' & Hin & Hz).
    exists z'. split; [right; exact Hin|exact Hz].
Qed.

Lemma decimal_not_space c v :
  decimal rt c = Some v -> 127 <= c -> is_space c = false.
Proof.
  unfold decimal. intros H Hc. destruct (c <? 128) eqn:E.
  - apply N.ltb_lt in E. assert (c = 127) as -> by lia. reflexivity.
  - apply N.ltb_ge in E. apply nd_lookup_in in H as (z & Hin & Hz & _).
    unfold nd_wf in wf. rewrite forallb_forall in wf.
    specialize (wf z Hin). rewrite forallb_forall in wf.
    assert (Hi : In (c - z) [0; 1; 2; 3; 4; 5; 6; 7; 8; 9]).
    { simpl. lia. }
    specialize (wf _ Hi). replace (z + (c - z)) with c in wf by lia.
    apply orb_prop in wf as [W|W].
    + apply N.ltb_lt in W. lia.
    + apply negb_true_iff in W. exact W.
Qed.

Lemma decimal_le_9 c v : decimal rt c = Some v -> v <= 9.
Proof.
  unfold decimal. destruct (c <? 128).
  - destruct ((48 <=? c) && (c <=? 57)) eqn:E; [|discriminate].
    intros [= <-]. bools. lia.
  - intros H. apply nd_lookup_in in H as (z & _ & Hz & ->). lia.
Qed.

Lemma int_class_decimal c v :
  decimal rt c = Some v -> int_class rt c = IDigit v.
Proof.
  intros H. unfold int_class. destruct (c <? 127) eqn:E.
  - apply N.ltb_lt in E. unfold decimal in H.
    assert (E' : (c <? 128) = true) by (apply N.ltb_lt; lia).
    rewrite E' in H.
    destruct ((48 <=? c) && (c <=? 57)) eqn:D; [|discriminate].
    injection H as <-. bools.
    replace (((9 <=? c) && (c <=? 13)) || (c =? 32)) with false.
    2:{ symmetry. apply orb_false_intro.
        - apply andb_false_intro2. apply N.leb_gt. lia.
        - apply N.eqb_neq. lia. }
    replace (c =? 43) with false by (symmetry; apply N.eqb_neq; lia).
    replace (c =? 45) with false by (symmetry; apply N.eqb_neq; lia).
    replace (c =? 95) with false by (symmetry; apply N.eqb_neq; lia).
    reflexivity.
  - apply N.ltb_ge in E. rewrite (decimal_not_space _ _ H E), H. reflexivity.
Qed.

Lemma map_int_class g :
  forallb (is_decimal rt) g = true ->
  map (int_class rt) g = map IDigit (digit_values rt g).
Proof.
  induction g as [|c g IH]; simpl; [reflexivity|]. intros H.
  apply andb_prop in H as [Hc Hg]. rewrite (IH Hg). f_equal.
  unfold is_decimal in Hc. unfold digit_value.
  destruct (decimal rt c) as [v|] eqn:D; [|discriminate].
  apply int_class_decimal. exact D.
Qed.

Lemma drop_blank_digits vs :
  drop_blank (map IDigit vs) = map IDigit vs.
Proof. destruct vs; reflexivity. Qed.

Lemma int_digits_digits vs acc b :
  int_digits acc b (map IDigit vs) =
  match vs with
  | [] => if b then Some acc else None
  | _ :: _ => Some (fold_left (fun a v => 10 * a + v) vs acc)
  end.
Proof.
  revert acc b. induction vs as [|v vs IH]; intros acc b; [reflexivity|].
  simpl. rewrite IH. destruct vs; reflexivity.
Qed.

Lemma group_value_fold g :
  fold_left (fun a v => 10 * a + v) (digit_values rt g) 0 = group_value rt g.
Proof.
  unfold group_value, digit_values. generalize 0.
  induction g as [|c g IH]; intros acc; simpl; [reflexivity|]. apply IH.
Qed.

Lemma drop_blank_digits_app vs rest :
  vs <> [] -> drop_blank (map IDigit vs ++ rest) = map IDigit vs ++ rest.
Proof. destruct vs; [congruence|reflexivity]. Qed.

Lemma strip_blank_digits vs tb :
  vs <> [] -> tb = [] \/ tb = [ISpace] ->
  rev (drop_blank (rev (drop_blank (map IDigit vs ++ tb)))) = map IDigit vs.
Proof.
  intros Hne Ht.
  rewrite (drop_blank_digits_app _ _ Hne), rev_app_distr, <- map_rev.
  assert (R : drop_blank (rev tb ++ map IDigit (rev vs))
              = map IDigit (rev vs)).
  { destruct Ht as [-> | ->].
    - apply drop_blank_digits.
    - change (drop_blank (rev [ISpace] ++ map IDigit (rev vs)))
        with (drop_blank (map IDigit (rev vs))).
      apply drop_blank_digits. }
  rewrite R, map_rev. apply rev_involutive.
Qed.

Lemma py_int_group g tail :
  digits13 rt g -> tail = [] \/ tail = [nl] ->
  py_int rt (g ++ tail) = Ok (Z.of_N (group_value rt g)).
Proof.
  intros [[Hl _] Hd] Ht. unfold py_int.
  assert (Hne : digit_values rt g <> []).
  { destruct g; simpl in *; [lia|discriminate]. }
  assert (Htb : map (int_class rt) tail = []
                \/ map (int_class rt) tail = [ISpace]).
  { destruct Ht as [-> | ->]; [left|right]; reflexivity. }
  rewrite map_app, (map_int_class _ Hd), (strip_blank_digits _ _ Hne Htb).
  destruct (digit_values rt g) as [|v vs] eqn:E; [congruence|].
  cbn [map fst snd]. rewrite <- (map_cons IDigit v vs).
  rewrite int_digits_digits, <- E, group_value_fold. reflexivity.
Qed.

(** What [all_octets] gives on the four parts of a matched subject. *)
Lemma all_octets_shape g1 g2 g3 g4 tail :
  digits13 rt g1 -> digits13 rt g2 -> digits13 rt g3 -> digits13 rt g4 ->
  tail = [] \/ tail = [nl] ->
  all_octets rt [g1; g2; g3; g4 ++ tail] =
  Ok ((group_value rt g1 <=? 255) && (group_value rt g2 <=? 255)
      && (group_value rt g3 <=? 255) && (group_value rt g4 <=? 255)).
Proof.
  intros H1 H2 H3 H4 Ht.
  assert (P : forall g, digits13 rt g ->
                py_int rt g = Ok (Z.of_N (group_value rt g))).
  { intros g Hg. rewrite <- (app_nil_r g) at 1.
    apply py_int_group; auto. }
  assert (Q : forall n : N,
             ((0 <=? Z.of_N n)%Z && (Z.of_N n <=? 255)%Z) = (n <=? 255)).
  { intros n. destruct (N.leb_spec n 255).
    - apply andb_true_intro. split; apply Z.leb_le; lia.
    - apply andb_false_intro2. apply Z.leb_gt. lia. }
  cbn [all_octets].
  rewrite (P _ H1), Q. destruct (group_value rt g1 <=? 255); [|reflexivity].
  rewrite (P _ H2), Q. destruct (group_value rt g2 <=? 255); [|reflexivity].
  rewrite (P _ H3), Q. destruct (group_value rt g3 <=? 255); [|reflexivity].
  rewrite (py_int_group _ _ H4 Ht), Q.
  destruct (group_value rt g4 <=? 255); reflexivity.
Qed.

Lemma is_valid_ip_total s :
  is_valid_ip rt s = Ok true \/ is_valid_ip rt s = Ok false.
Proof.
  unfold is_valid_ip. destruct (re_match rt ipv4_pattern s) eqn:E; [|auto].
  apply re_match_ipv4 in E
    as (g1 & g2 & g3 & g4 & tail & -> & H1 & H2 & H3 & H4 & Ht).
  rewrite split_shape, all_octets_shape by assumption.
  destruct ((group_value rt g1 <=? 255) && _ && _ && _); auto.
Qed.

Lemma is_valid_ip_true_iff s :
  is_valid_ip rt s = Ok true <-> valid_candidate rt s.
Proof.
  unfold is_valid_ip, valid_candidate. split.
  - destruct (re_match rt ipv4_pattern s) eqn:E; [|discriminate].
    apply re_match_ipv4 in E
      as (g1 & g2 & g3 & g4 & tail & -> & H1 & H2 & H3 & H4 & Ht).
    rewrite split_shape, all_octets_shape by assumption.
    destruct (group_value rt g1 <=? 255) eqn:V1; [|discriminate].
    destruct (group_value rt g2 <=? 255) eqn:V2; [|discriminate].
    destruct (group_value rt g3 <=? 255) eqn:V3; [|discriminate].
    destruct (group_value rt g4 <=? 255) eqn:V4; [|discriminate].
    intros _. apply N.leb_le in V1, V2, V3, V4.
    exists g1, g2, g3, g4, tail. unfold octet. auto 10.
  - intros (g1 & g2 & g3 & g4 & tail & -> & [H1 V1] & [H2 V2] & [H3 V3]
            & [H4 V4] & Ht).
    assert (E : re_match rt ipv4_pattern
                  (g1 ++ dot :: g2 ++ dot :: g3 ++ dot :: g4 ++ tail)
                = true).
    { apply re_match_ipv4. exists g1, g2, g3, g4, tail. auto 10. }
    rewrite E, split_shape, all_octets_shape by assumption.
    apply N.leb_le in V1, V2, V3, V4. rewrite V1, V2, V3, V4. reflexivity.
Qed.

End Validator.

(** ** Strings *)

Lemma starts_with_app p b : starts_with p (p ++ b) = true.
Proof.
  induction p as [|c p IH]; simpl; [destruct b; reflexivity|].
  rewrite N.eqb_refl. exact IH.
Qed.

Lemma str_contains_prefix p b : str_contains p (p ++ b) = true.
Proof.
  destruct (p ++ b) eqn:E; simpl; rewrite <- E, starts_with_app;
    reflexivity.
Qed.

Lemma str_contains_app_r p a s :
  str_contains p s = true -> str_contains p (a ++ s) = true.
Proof.
  intros H. induction a as [|c a IH]; [exact H|].
  simpl. rewrite IH. apply orb_true_r.
Qed.

Lemma requests_app a b : requests (a ++ b) = requests a ++ requests b.
Proof.
  induction a as [|e a IH]; [reflexivity|].
  destruct e; simpl; rewrite IH; reflexivity.
Qed.

(** ** The lookup *)

Section Lookup.

Variable rt : interp.
Variable net : list event -> str -> result response.

Lemma on_error_value e h :
  fst (on_error e h) = Ok (error_message e).
Proof.
  unfold on_error, error_message.
  destruct (is_ConnectionError e); [reflexivity|].
  destruct (is_Timeout e); reflexivity.
Qed.

Lemma on_error_events e h :
  exists log, snd (on_error e h) = h ++ log /\ requests log = [].
Proof.
  unfold on_error.
  destruct (is_ConnectionError e).
  { exists []. rewrite app_nil_r. auto. }
  destruct (is_Timeout e).
  { exists []. rewrite app_nil_r. auto. }
  exists [LogError (u "Error getting IP info: " ++ exn_str e)]. auto.
Qed.

Lemma field_events data k h :
  snd (field rt data k h) = h.
Proof.
  unfold field, bind, lift. destruct (py_get rt data (u k) NA); reflexivity.
Qed.

Lemma field_dict items k h :
  field rt (PDict items) k h = (Ok (slot rt items k), h).
Proof.
  unfold field, bind, lift, slot, py_get, NA.
  destruct (dict_lookup (u k) items); reflexivity.
Qed.

(** A payload that is a dict without the key [error] is rendered field
    by field. *)
Lemma render_dict addr items h :
  dict_lookup (u "error") items = None ->
  render rt addr (PDict items) h =
  (Ok (info_text (slot rt items "ip") (slot rt items "country_name")
         (slot rt items "region") (slot rt items "city")
         (slot rt items "org") (slot rt items "org")
         (slot rt items "latitude") (slot rt items "longitude")
         (slot rt items "timezone")), h).
Proof.
  intros H. unfold render, bind at 1. unfold lift at 1, py_in.
  rewrite H. cbn [negb].
  unfold bind. rewrite !field_dict. reflexivity.
Qed.

Lemma render_error addr data h :
  py_in rt (u "error") data = Ok true ->
  render rt addr data h = (Ok (remote_error_text rt addr), h).
Proof.
  intros H. unfold render, bind, lift. rewrite H. reflexivity.
Qed.

Lemma render_events addr data h : snd (render rt addr data h) = h.
Proof.
  unfold render, bind at 1. unfold lift at 1.
  destruct (py_in rt (u "error") data) as [[|]|e]; try reflexivity.
  cbn [negb]. destruct data;
    unfold bind, field, lift, py_get; reflexivity.
Qed.

(** Once the payload is there, the reply is its rendering, or the message
    for the exception the rendering raises. *)
Lemma get_ip_info_payload ip h addr h1 data h2 :
  working_address rt net ip h = (Ok addr, h1) ->
  geolocate rt net addr h1 = (Ok data, h2) ->
  get_ip_info rt net ip h = try_except (render rt addr data) on_error h2.
Proof.
  intros Hw Hg. unfold get_ip_info, try_except, lookup, bind.
  rewrite Hw, Hg. reflexivity.
Qed.

Lemma get_ip_info_failure ip h e h1 :
  lookup rt net ip h = (Raise e, h1) ->
  get_ip_info rt net ip h = on_error e h1.
Proof.
  intros H. unfold get_ip_info, try_except. rewrite H. reflexivity.
Qed.

Lemma working_address_supplied ip h :
  no_address ip = false ->
  working_address rt net ip h = (Ok (PStr ip), h).
Proof. intros H. unfold working_address. rewrite H. reflexivity. Qed.

Lemma working_address_events ip h :
  exists new,
    snd (working_address rt net ip h) = h ++ new
    /\ ((no_address ip = false /\ new = []
         /\ fst (working_address rt net ip h) = Ok (PStr ip))
        \/ (no_address ip = true /\ new = [Get ipify_url 10])).
Proof.
  unfold working_address. destruct (no_address ip).
  - exists [Get ipify_url 10]. split; [|auto].
    unfold bind, requests_get, lift.
    destruct (net h ipify_url) as [r|e]; [|reflexivity].
    destruct (json r) as [p|e]; [|reflexivity].
    destruct (subscript rt p (u "ip")); reflexivity.
  - exists []. rewrite app_nil_r. auto.
Qed.

Lemma geolocate_events addr h :
  snd (geolocate rt net addr h) = h ++ [Get (ipapi_url rt addr) 10].
Proof.
  unfold geolocate, bind, requests_get, lift.
  destruct (net h (ipapi_url rt addr)) as [r|e]; [|reflexivity].
  destruct (json r); reflexivity.
Qed.

Lemma ipify_not_ipapi addr : ipify_url <> ipapi_url rt addr.
Proof.
  unfold ipify_url, ipapi_url. intros H.
  apply (f_equal (fun s => nth 8 s 0)) in H. vm_compute in H. discriminate.
Qed.

(** The events of a lookup: the requests are the geolocation of the given
    address, or the self-discovery alone, or the self-discovery and the
    geolocation of what it found. *)
Lemma get_ip_info_events ip h :
  exists new,
    snd (get_ip_info rt net ip h) = h ++ new
    /\ ((no_address ip = false
         /\ requests new = [ipapi_url rt (PStr ip)])
        \/ (no_address ip = true /\ requests new = [ipify_url])
        \/ (no_address ip = true
            /\ exists addr, requests new = [ipify_url; ipapi_url rt addr])).
Proof.
  unfold get_ip_info, try_except, lookup, bind.
  destruct (working_address_events ip h) as (n1 & E1 & C1).
  destruct (working_address rt net ip h) as [[addr|e] h1] eqn:W;
    simpl in E1; subst h1.
  - pose proof (geolocate_events addr (h ++ n1)) as E2.
    destruct (geolocate rt net addr (h ++ n1)) as [[data|e] h2] eqn:G;
      simpl in E2; subst h2.
    + pose proof (render_events addr data
                    ((h ++ n1) ++ [Get (ipapi_url rt addr) 10])) as E3.
      destruct (render rt addr data _) as [[text|e] h3] eqn:R;
        simpl in E3; subst h3.
      * exists (n1 ++ [Get (ipapi_url rt addr) 10]).
        split; [simpl; rewrite app_assoc; reflexivity|].
        destruct C1 as [(N & -> & F)|(N & ->)].
        -- left. simpl in F. injection F as <-. auto.
        -- right. right. split; [exact N|]. exists addr. reflexivity.
      * destruct (on_error_events e
                    ((h ++ n1) ++ [Get (ipapi_url rt addr) 10]))
          as (log & -> & L).
        exists (n1 ++ [Get (ipapi_url rt addr) 10] ++ log).
        split; [rewrite <- !app_assoc; reflexivity|].
        rewrite !requests_app, L.
        destruct C1 as [(N & -> & F)|(N & ->)].
        -- left. simpl in F. injection F as <-. auto.
        -- right. right. split; [exact N|]. exists addr. reflexivity.
    + destruct (on_error_events e
                  ((h ++ n1) ++ [Get (ipapi_url rt addr) 10]))
        as (log & -> & L).
      exists (n1 ++ [Get (ipapi_url rt addr) 10] ++ log).
      split; [rewrite <- !app_assoc; reflexivity|].
      rewrite !requests_app, L.
      destruct C1 as [(N & -> & F)|(N & ->)].
      * left. simpl in F. injection F as <-. auto.
      * right. right. split; [exact N|]. exists addr. reflexivity.
  - destruct (on_error_events e (h ++ n1)) as (log & -> & L).
    exists (n1 ++ log). split; [rewrite <- app_assoc; reflexivity|].
    rewrite requests_app, L.
    destruct C1 as [(N & -> & F)|(N & ->)].
    + simpl in F. discriminate.
    + right. left. auto.
Qed.

End Lookup.

(** ** Claims on the validator *)

(** The examples of the specification. *)
Example is_valid_ip_examples rt :
  is_valid_ip rt (u "8.8.8.8") = Ok true
  /\ is_valid_ip rt (u "1.1.1.1") = Ok true
  /\ is_valid_ip rt (u "256.1.1.1") = Ok false
  /\ is_valid_ip rt (u "8.8.8") = Ok false
  /\ is_valid_ip rt (u "abc.def.ghi.jkl") = Ok false.
Proof. repeat split; vm_compute; reflexivity. Qed.

(** The model agrees with the interpreter on these. *)
Example is_valid_ip_more :
  is_valid_ip sample_interp (u "000.000.000.000") = Ok true
  /\ is_valid_ip sample_interp (u "٨.8.8.8") = Ok true
  /\ is_valid_ip sample_interp (u "8.8.8.8" ++ [nl; nl]) = Ok false
  /\ is_valid_ip sample_interp (u "8.8.8.8 ") = Ok false
  /\ is_valid_ip sample_interp (u "8.8.8.8" ++ [13]) = Ok false
  /\ is_valid_ip sample_interp (u "1.2.3.4.5") = Ok false
  /\ is_valid_ip sample_interp (u "1234.1.1.1") = Ok false
  /\ is_valid_ip sample_interp (u "") = Ok false.
Proof. repeat split; vm_compute; reflexivity. Qed.

Example py_int_examples :
  py_int sample_interp (u "8" ++ [nl]) = Ok 8%Z
  /\ py_int sample_interp (u " 8") = Ok 8%Z
  /\ py_int sample_interp (u "010") = Ok 10%Z
  /\ py_int sample_interp (u "1_0") = Ok 10%Z
  /\ py_int sample_interp (u "+8") = Ok 8%Z
  /\ py_int sample_interp (u "-12") = Ok (-12)%Z
  /\ py_int sample_interp (u "٨8") = Ok 88%Z
  /\ py_int sample_interp (u "8" ++ [133]) = Ok 8%Z
  /\ py_int sample_interp (28 :: u "8")
     = Raise (builtin sample_interp (InvalidIntLiteral (28 :: u "8")))
  /\ py_int sample_interp (u "_8")
     = Raise (builtin sample_interp (InvalidIntLiteral (u "_8")))
  /\ py_int sample_interp (u "8_")
     = Raise (builtin sample_interp (InvalidIntLiteral (u "8_")))
  /\ py_int sample_interp (u "1__0")
     = Raise (builtin sample_interp (InvalidIntLiteral (u "1__0")))
  /\ py_int sample_interp (u "")
     = Raise (builtin sample_interp (InvalidIntLiteral (u ""))).
Proof. repeat split; vm_compute; reflexivity. Qed.

Example py_str_examples :
  py_str sample_interp (PInt 0) = u "0"
  /\ py_str sample_interp (PInt (-15)) = u "-15"
  /\ py_str sample_interp (PInt 255) = u "255"
  /\ py_str sample_interp PNone = u "None"
  /\ py_str sample_interp (PFloat (u "37.4")) = u "37.4".
Proof. repeat split; vm_compute; reflexivity. Qed.

Example split_examples :
  split dot (u "") = [[]]
  /\ split dot (u "a..b") = [u "a"; []; u "b"]
  /\ split dot (u ".") = [[]; []]
  /\ strip (u "  8.8.8.8 " ++ [nl]) = u "8.8.8.8".
Proof. repeat split; vm_compute; reflexivity. Qed.

(** What [strip] returns does not end with a blank. *)
Lemma lstrip_head s :
  lstrip s = [] \/ exists c r, lstrip s = c :: r /\ is_space c = false.
Proof.
  induction s as [|c s IH]; [left; reflexivity|].
  simpl. destruct (is_space c) eqn:E; [exact IH|].
  right. exists c, s. auto.
Qed.

Lemma strip_end s :
  strip s = [] \/ exists r c, strip s = r ++ [c] /\ is_space c = false.
Proof.
  unfold strip. destruct (lstrip_head (rev (lstrip s))) as [E|(c & r & E & C)].
  - left. rewrite E. reflexivity.
  - right. exists (rev r), c. rewrite E. auto.
Qed.

(** On the text that [handle_message] passes, which is stripped, the
    validator accepts exactly the strings of four dot-separated groups
    of one to three decimal digits that denote numbers of [0,255]. *)
Lemma is_valid_ip_stripped rt text :
  nd_wf rt = true ->
  is_valid_ip rt (strip text) = Ok true <->
  exists g1 g2 g3 g4,
    strip text = dotted [g1; g2; g3; g4]
    /\ octet rt g1 /\ octet rt g2 /\ octet rt g3 /\ octet rt g4.
Proof.
  intros W. rewrite (is_valid_ip_true_iff rt W). split.
  - intros (g1 & g2 & g3 & g4 & tail & E & H1 & H2 & H3 & H4 & [->| ->]).
    + exists g1, g2, g3, g4. split; [exact E|auto].
    + exfalso. destruct (strip_end text) as [Z|(r & c & Z & C)].
      * rewrite Z in E. destruct g1; discriminate E.
      * rewrite Z in E.
        replace (g1 ++ dot :: g2 ++ dot :: g3 ++ dot :: g4 ++ [nl])
          with ((g1 ++ dot :: g2 ++ dot :: g3 ++ dot :: g4) ++ [nl]) in E
          by (rewrite <- !app_assoc; simpl; rewrite <- !app_assoc;
              simpl; rewrite <- !app_assoc; reflexivity).
        apply app_inj_tail in E as [_ ->]. discriminate C.
  - intros (g1 & g2 & g3 & g4 & E & H1 & H2 & H3 & H4).
    exists g1, g2, g3, g4, []. split; [exact E|auto 10].
Qed.

(** C1, where the code departs from it: the string made of "8.8.8.8" and
    a newline is not four dot-separated groups of digits, and
    [is_valid_ip] accepts it, because [$] also matches before a newline
    that ends the subject and [int] ignores the newline. *)
Theorem is_valid_ip_trailing_newline rt :
  is_valid_ip rt (u "8.8.8.8" ++ [nl]) = Ok true.
Proof. vm_compute. reflexivity. Qed.

Lemma octet_leading_zero rt g :
  octet rt g -> (length g <= 2)%nat -> octet rt (48 :: g).
Proof.
  intros [[[L1 L2] D] V] L. unfold octet, digits13. repeat split.
  - simpl. lia.
  - simpl. lia.
  - change (forallb (is_decimal rt) (48 :: g))
      with (forallb (is_decimal rt) g). exact D.
  - exact V.
Qed.

Lemma four_octets_valid rt gs :
  nd_wf rt = true -> length gs = 4%nat -> Forall (octet rt) gs ->
  is_valid_ip rt (dotted gs) = Ok true.
Proof.
  intros W L F.
  destruct gs as [|a [|b [|c [|d [|e gs]]]]]; try discriminate L.
  inversion F as [|? ? Ha F1]; subst. inversion F1 as [|? ? Hb F2]; subst.
  inversion F2 as [|? ? Hc F3]; subst. inversion F3 as [|? ? Hd _]; subst.
  apply is_valid_ip_true_iff; [exact W|].
  exists a, b, c, d, []. auto 10.
Qed.

(** C2, amended: a leading zero does not invalidate a candidate.  When
    four groups are each one to three decimal digits denoting a number of
    [0,255], writing a zero before any group of at most two digits gives
    a string that [is_valid_ip] accepts. *)
Theorem leading_zero_accepted rt gs1 g gs2 :
  nd_wf rt = true ->
  length (gs1 ++ g :: gs2) = 4%nat ->
  Forall (octet rt) (gs1 ++ g :: gs2) ->
  (length g <= 2)%nat ->
  is_valid_ip rt (dotted (gs1 ++ (48 :: g) :: gs2)) = Ok true.
Proof.
  intros W L F Lg. apply four_octets_valid; [exact W| |].
  - rewrite length_app in *. simpl in *. exact L.
  - apply Forall_app in F as [F1 F2]. inversion F2 as [|? ? Hg F3]; subst.
    apply Forall_app. split; [exact F1|]. constructor; [|exact F3].
    apply octet_leading_zero; assumption.
Qed.

Lemma leading_zero_accepted_witness :
  is_valid_ip sample_interp
    (dotted ([] ++ (48 :: u "1") :: [u "2"; u "3"; u "4"])) = Ok true.
Proof.
  apply (leading_zero_accepted sample_interp [] (u "1")
           [u "2"; u "3"; u "4"]).
  - reflexivity.
  - reflexivity.
  - repeat constructor; vm_compute; intros; discriminate.
  - vm_compute. lia.
Defined.

(** C2 as stated fails: the first group of "01.2.3.4" has a leading zero
    and the validator returns true. *)
Lemma leading_zero_counterexample :
  is_valid_ip sample_interp (u "01.2.3.4") = Ok true.
Proof. vm_compute. reflexivity. Qed.

(** ** Claims on the lookup and the handlers *)

Section Claims.

Variable rt : interp.

Lemma geolocate_answer net addr h r data :
  net h (ipapi_url rt addr) = Ok r -> json r = Ok data ->
  geolocate rt net addr h = (Ok data, h ++ [Get (ipapi_url rt addr) 10]).
Proof.
  intros Hn Hj. unfold geolocate, bind, requests_get, lift.
  rewrite Hn, Hj. reflexivity.
Qed.

(** C3, amended: when the geolocation service answers the request for
    "8.8.8.8" with the payload of the specification, the free text
    "8.8.8.8" is acknowledged, looked up once and answered with a reply
    that contains the seven values of the payload and one "N/A", in the
    region line, since the payload has no region. *)
Theorem google_reply net :
  (forall h, net h google_url = Ok {| json := Ok google_payload |}) ->
  exists reply,
    handle_message rt net (u "8.8.8.8") [] =
    (Ok tt, [ Reply fetching_text None; Get google_url 10;
              Reply reply Markdown ])
    /\ Forall (fun v => str_contains v reply = true) google_values
    /\ occurrences (u "N/A") reply = 1%nat
    /\ str_contains (u "*Регион:* N/A" ++ [nl]) reply = true.
Proof.
  intros H.
  assert (Hs : strip (u "8.8.8.8") = google_dns) by (vm_compute; reflexivity).
  assert (Hv : is_valid_ip rt google_dns = Ok true)
    by (vm_compute; reflexivity).
  assert (Hw : working_address rt net google_dns [Reply fetching_text None]
               = (Ok (PStr google_dns), [Reply fetching_text None]))
    by reflexivity.
  assert (Hg : geolocate rt net (PStr google_dns) [Reply fetching_text None]
               = (Ok google_payload,
                  [Reply fetching_text None; Get google_url 10])).
  { exact (geolocate_answer net (PStr google_dns) [Reply fetching_text None]
             {| json := Ok google_payload |} google_payload
             (H _) eq_refl). }
  exists (info_text (slot rt google_items "ip")
            (slot rt google_items "country_name")
            (slot rt google_items "region") (slot rt google_items "city")
            (slot rt google_items "org") (slot rt google_items "org")
            (slot rt google_items "latitude")
            (slot rt google_items "longitude")
            (slot rt google_items "timezone")).
  split.
  - unfold handle_message. rewrite Hs. unfold bind at 1. unfold lift at 1.
    rewrite Hv. unfold bind at 1. unfold reply_text at 1, emit.
    unfold bind at 1. cbn [app].
    rewrite (get_ip_info_payload rt net _ _ _ _ _ _ Hw Hg).
    unfold try_except. unfold google_payload.
    rewrite render_dict by reflexivity. reflexivity.
  - split; [|split].
    + unfold google_values. repeat constructor; vm_compute; reflexivity.
    + vm_compute. reflexivity.
    + vm_compute. reflexivity.
Qed.


Lemma get_ip_info_rendered net ip h addr h1 items h2 :
  working_address rt net ip h = (Ok addr, h1) ->
  geolocate rt net addr h1 = (Ok (PDict items), h2) ->
  dict_lookup (u "error") items = None ->
  get_ip_info rt net ip h =
  (Ok (info_text (slot rt items "ip") (slot rt items "country_name")
         (slot rt items "region") (slot rt items "city")
         (slot rt items "org") (slot rt items "org")
         (slot rt items "latitude") (slot rt items "longitude")
         (slot rt items "timezone")), h2).
Proof.
  intros Hw Hg He. rewrite (get_ip_info_payload rt net _ _ _ _ _ _ Hw Hg).
  unfold try_except. rewrite render_dict by exact He. reflexivity.
Qed.

Lemma slot_present items k v :
  dict_lookup (u k) items = Some v -> slot rt items k = py_str rt v.
Proof. intros H. unfold slot. rewrite H. reflexivity. Qed.

Ltac find_slot :=
  repeat (apply str_contains_prefix
          || (apply str_contains_app_r; [idtac])).

(** C4: for a payload without the key [error], the reply reproduces the
    value of every field of the payload that it shows; and when the city
    is absent the city line reads "N/A", the rest of the reply being what
    it is for a payload that has a city and the same other fields. *)
Theorem payload_fields_rendered net ip h addr h1 items h2 :
  working_address rt net ip h = (Ok addr, h1) ->
  geolocate rt net addr h1 = (Ok (PDict items), h2) ->
  dict_lookup (u "error") items = None ->
  exists text,
    get_ip_info rt net ip h = (Ok text, h2)
    /\ (forall k v,
          In k geo_fields -> dict_lookup (u k) items = Some v ->
          str_contains (py_str rt v) text = true)
    /\ (dict_lookup (u "city") items = None ->
        exists pre post,
          text = pre ++ u "• 🏙️ *Город:* " ++ u "N/A" ++ [nl] ++ post
          /\ forall net' ip' h' addr' h1' items' h2' v,
               working_address rt net' ip' h' = (Ok addr', h1') ->
               geolocate rt net' addr' h1' = (Ok (PDict items'), h2') ->
               dict_lookup (u "error") items' = None ->
               dict_lookup (u "city") items' = Some v ->
               (forall k, In k geo_fields -> k <> "city"%string ->
                          dict_lookup (u k) items' = dict_lookup (u k) items) ->
               get_ip_info rt net' ip' h' =
               (Ok (pre ++ u "• 🏙️ *Город:* " ++ py_str rt v ++ [nl]
                      ++ post), h2')).
Proof.
  intros Hw Hg He. eexists. split; [|split].
  - apply (get_ip_info_rendered _ _ _ _ _ _ _ Hw Hg He).
  - intros k v Hk Hv. unfold info_text.
    simpl in Hk.
    destruct Hk as [<-|[<-|[<-|[<-|[<-|[<-|[<-|[<-|[]]]]]]]]];
      rewrite <- (slot_present _ _ _ Hv); find_slot.
  - intros Hc.
    exists ([nl] ++ u "📍 *Информация об IP-адресе:*" ++ [nl] ++ [nl]
            ++ u "• 🆔 *IP:* `" ++ slot rt items "ip" ++ u "`" ++ [nl]
            ++ u "• 🏳️ *Страна:* " ++ slot rt items "country_name" ++ [nl]
            ++ u "• 📍 *Регион:* " ++ slot rt items "region" ++ [nl]).
    exists (u "• 📡 *Провайдер:* " ++ slot rt items "org" ++ [nl]
            ++ u "• 🌐 *Организация:* " ++ slot rt items "org" ++ [nl]
            ++ u "• 📍 *Координаты:* " ++ slot rt items "latitude"
            ++ u ", " ++ slot rt items "longitude" ++ [nl]
            ++ u "• 🕐 *Часовой пояс:* " ++ slot rt items "timezone"
            ++ [nl] ++ u "            ").
    split.
    + unfold info_text. unfold slot at 4. rewrite Hc.
      rewrite <- !app_assoc. reflexivity.
    + intros net' ip' h' addr' h1' items' h2' v Hw' Hg' He' Hc' Hs.
      rewrite (get_ip_info_rendered _ _ _ _ _ _ _ Hw' Hg' He').
      assert (S : forall k, In k geo_fields -> k <> "city"%string ->
                            slot rt items' k = slot rt items k).
      { intros k Hk Hn. unfold slot. rewrite (Hs k Hk Hn). reflexivity. }
      rewrite (slot_present _ _ _ Hc').
      rewrite !S by (simpl; tauto || discriminate).
      unfold info_text. rewrite <- !app_assoc. reflexivity.
Qed.

(** C10: in every reply that renders a payload, the provider line and
    the organization line show one and the same value, that of the field
    [org]. *)
Theorem provider_is_organization net ip h addr h1 items h2 :
  working_address rt net ip h = (Ok addr, h1) ->
  geolocate rt net addr h1 = (Ok (PDict items), h2) ->
  dict_lookup (u "error") items = None ->
  exists pre org post,
    get_ip_info rt net ip h =
    (Ok (pre ++ u "• 📡 *Провайдер:* " ++ org ++ [nl]
           ++ u "• 🌐 *Организация:* " ++ org ++ [nl] ++ post), h2)
    /\ org = match dict_lookup (u "org") items with
             | Some v => py_str rt v
             | None => u "N/A"
             end.
Proof.
  intros Hw Hg He.
  exists ([nl] ++ u "📍 *Информация об IP-адресе:*" ++ [nl] ++ [nl]
          ++ u "• 🆔 *IP:* `" ++ slot rt items "ip" ++ u "`" ++ [nl]
          ++ u "• 🏳️ *Страна:* " ++ slot rt items "country_name" ++ [nl]
          ++ u "• 📍 *Регион:* " ++ slot rt items "region" ++ [nl]
          ++ u "• 🏙️ *Город:* " ++ slot rt items "city" ++ [nl]).
  exists (slot rt items "org").
  exists (u "• 📍 *Координаты:* " ++ slot rt items "latitude"
          ++ u ", " ++ slot rt items "longitude" ++ [nl]
          ++ u "• 🕐 *Часовой пояс:* " ++ slot rt items "timezone"
          ++ [nl] ++ u "            ").
  split; [|reflexivity].
  rewrite (get_ip_info_rendered _ _ _ _ _ _ _ Hw Hg He).
  unfold info_text. rewrite <- !app_assoc. reflexivity.
Qed.


(** C5: when the payload of the geolocation answer has an [error] field
    the lookup returns the remote-error message, which ends with the
    address the lookup worked with: the supplied address, or the address
    found by self-discovery when none was supplied.  The message is not a
    rendering of the payload. *)
Theorem remote_error_reported net ip h addr h1 data h2 :
  working_address rt net ip h = (Ok addr, h1) ->
  geolocate rt net addr h1 = (Ok data, h2) ->
  py_in rt (u "error") data = Ok true ->
  get_ip_info rt net ip h =
  (Ok (u "❌ Ошибка: Не удалось получить информацию об IP "
         ++ py_str rt addr), h2)
  /\ (no_address ip = false -> addr = PStr ip)
  /\ (no_address ip = true ->
      exists r payload,
        net h ipify_url = Ok r /\ json r = Ok payload
        /\ subscript rt payload (u "ip") = Ok addr)
  /\ forall a b c d e f g i j,
       u "❌ Ошибка: Не удалось получить информацию об IP "
         ++ py_str rt addr <> info_text a b c d e f g i j.
Proof.
  intros Hw Hg He. split; [|split; [|split]].
  - rewrite (get_ip_info_payload rt net _ _ _ _ _ _ Hw Hg).
    unfold try_except. rewrite render_error by exact He. reflexivity.
  - intros N. rewrite (working_address_supplied rt net ip h N) in Hw.
    injection Hw as <- _. reflexivity.
  - intros N. unfold working_address in Hw. rewrite N in Hw.
    unfold bind, requests_get, lift in Hw.
    destruct (net h ipify_url) as [r|e]; [|discriminate].
    destruct (json r) as [payload|e] eqn:J; [|discriminate].
    destruct (subscript rt payload (u "ip")) as [a|e] eqn:S;
      [|discriminate].
    injection Hw as <- _. exists r, payload. auto.
  - intros a b c d e f g i j E.
    apply (f_equal (fun s => nth 0 s 0)) in E. vm_compute in E.
    discriminate.
Qed.

(** C6: when no address is given and the self-discovery fails, whether
    in the request, in the decoding of its answer or in reading the
    address out of it, the lookup returns the message for that failure
    and the only request made is the self-discovery. *)
Theorem discovery_failure_is_final net h e h1 :
  working_address rt net [] h = (Raise e, h1) ->
  fst (get_ip_info rt net [] h) = Ok (error_message e)
  /\ exists log,
       snd (get_ip_info rt net [] h) = h ++ Get ipify_url 10 :: log
       /\ requests (Get ipify_url 10 :: log) = [ipify_url].
Proof.
  intros Hw.
  assert (L : lookup rt net [] h = (Raise e, h1)).
  { unfold lookup, bind. rewrite Hw. reflexivity. }
  rewrite (get_ip_info_failure rt net _ _ _ _ L). split.
  - apply on_error_value.
  - destruct (working_address_events rt net [] h) as (new & E & C).
    rewrite Hw in E. simpl in E. subst h1.
    destruct C as [(N & _)|(_ & ->)]; [discriminate N|].
    destruct (on_error_events e (h ++ [Get ipify_url 10]))
      as (log & -> & Hl).
    exists log. split.
    + rewrite <- app_assoc. reflexivity.
    + simpl. rewrite Hl. reflexivity.
Qed.

(** C7, amended: whatever the address and the network, the lookup
    returns a string and raises nothing.  When its body raises [e] the
    string is the connection message if [e] is a [ConnectionError]
    (among them [ConnectTimeout], also a [Timeout]), the timeout message
    if [e] is a [Timeout] and no [ConnectionError], and otherwise the
    unknown-error message, which ends with [str(e)]. *)
Theorem get_ip_info_never_raises net ip h :
  exists text h',
    get_ip_info rt net ip h = (Ok text, h')
    /\ match lookup rt net ip h with
       | (Ok info, _) => text = info
       | (Raise e, _) =>
           (is_ConnectionError e = true -> text = connection_text)
           /\ (is_ConnectionError e = false -> is_Timeout e = true ->
               text = timeout_text)
           /\ (is_ConnectionError e = false -> is_Timeout e = false ->
               text = u "⚠️ Произошла ошибка: " ++ exn_str e)
       end.
Proof.
  unfold get_ip_info, try_except.
  destruct (lookup rt net ip h) as [[info|e] h1].
  - exists info, h1. auto.
  - unfold on_error.
    destruct (is_ConnectionError e).
    { exists connection_text, h1. split; [reflexivity|].
      split; [intros _; reflexivity|].
      split; intros H; discriminate H. }
    destruct (is_Timeout e).
    { exists timeout_text, h1. split; [reflexivity|].
      split; [intros H; discriminate H|].
      split; [intros _ _; reflexivity|intros _ H; discriminate H]. }
    exists (unknown_text e), (h1 ++ [LogError (u "Error getting IP info: "
                                                ++ exn_str e)]).
    split; [reflexivity|].
    split; [intros H; discriminate H|].
    split; [intros _ H; discriminate H|intros _ _; reflexivity].
Qed.

(** C8: for [/ip 1.1.1.1] the only request is the geolocation of
    "1.1.1.1", and no self-discovery is made; and every lookup makes at
    most two requests, none of them twice: the geolocation of the given
    address, or the self-discovery, followed or not by one geolocation. *)
Theorem ip_command_requests net :
  requests (snd (ip_command rt net [u "1.1.1.1"] []))
  = [u "https://ipapi.co/1.1.1.1/json/"]
  /\ forall ip h,
       exists new,
         snd (get_ip_info rt net ip h) = h ++ new
         /\ (length (requests new) <= 2)%nat
         /\ NoDup (requests new)
         /\ ((no_address ip = false
              /\ requests new = [ipapi_url rt (PStr ip)])
             \/ (no_address ip = true /\ requests new = [ipify_url])
             \/ (no_address ip = true
                 /\ exists addr,
                      requests new = [ipify_url; ipapi_url rt addr])).
Proof.
  split.
  - unfold ip_command, bind, reply_text, emit. cbn [app].
    destruct (get_ip_info_events rt net (u "1.1.1.1")
                [Reply fetching_text None]) as (new & E & C).
    destruct (get_ip_info rt net (u "1.1.1.1") [Reply fetching_text None])
      as [[text|e] h1]; simpl in E; subst h1; cbn [snd];
      rewrite ?requests_app; simpl;
      destruct C as [(_ & ->)|[(N & _)|(N & _)]];
      try discriminate N; try rewrite app_nil_r; reflexivity.
  - intros ip h.
    destruct (get_ip_info_events rt net ip h) as (new & E & C).
    exists new. split; [exact E|].
    split; [|split; [|exact C]].
    + destruct C as [(_ & ->)|[(_ & ->)|(_ & addr & ->)]]; simpl; lia.
    + destruct C as [(_ & ->)|[(_ & ->)|(_ & addr & ->)]].
      * apply NoDup_cons; [simpl; tauto|apply NoDup_nil].
      * apply NoDup_cons; [simpl; tauto|apply NoDup_nil].
      * apply NoDup_cons.
        -- simpl. intros [H|[]]. symmetry in H.
           exact (ipify_not_ipapi rt addr H).
        -- apply NoDup_cons; [simpl; tauto|apply NoDup_nil].
Qed.

(** C9, amended: a free text whose stripped form the validator refuses
    gets the guidance text as its only reply, and no request is made. *)
Theorem invalid_text_guidance net text h :
  is_valid_ip rt (strip text) = Ok false ->
  handle_message rt net text h = (Ok tt, h ++ [Reply guidance_text Markdown])
  /\ requests (h ++ [Reply guidance_text Markdown]) = requests h.
Proof.
  intros H. split.
  - unfold handle_message, bind, lift. rewrite H. reflexivity.
  - rewrite requests_app. simpl. apply app_nil_r.
Qed.

End Claims.

(** Runs of the handlers on the example networks.  A command argument
    goes to the service as it is, valid address or not. *)
Example ip_command_unvalidated :
  ip_command sample_interp refusing_net [u "999.1.1.1"] [] =
  (Ok tt,
   [ Reply fetching_text None;
     Get (u "https://ipapi.co/999.1.1.1/json/") 10;
     Reply (u "❌ Ошибка: Не удалось получить информацию об IP 999.1.1.1")
       Markdown ]).
Proof. vm_compute. reflexivity. Qed.

Example ip_command_no_argument :
  ip_command sample_interp discovering_net [] [] =
  (Ok tt,
   [ Reply detecting_text None;
     Get ipify_url 10;
     Get (u "https://ipapi.co/203.0.113.7/json/") 10;
     Reply (u "❌ Ошибка: Не удалось получить информацию об IP 203.0.113.7")
       Markdown ]).
Proof. vm_compute. reflexivity. Qed.

Example read_timeout_reply :
  ip_command sample_interp read_timeout_net [u "1.1.1.1"] [] =
  (Ok tt,
   [ Reply fetching_text None;
     Get (u "https://ipapi.co/1.1.1.1/json/") 10;
     Reply timeout_text Markdown ]).
Proof. vm_compute. reflexivity. Qed.

Lemma payload_fields_rendered_witness :
  exists text,
    get_ip_info sample_interp no_city_net google_dns [] =
    (Ok text, [Get google_url 10])
    /\ str_contains (u "Mountain View") text = false
    /\ str_contains (u "*Город:* N/A") text = true.
Proof.
  destruct (payload_fields_rendered sample_interp no_city_net google_dns []
              (PStr google_dns) [] google_items_no_city
              [Get google_url 10] eq_refl eq_refl eq_refl)
    as (text & E & _ & _).
  exists text. split; [exact E|].
  vm_compute in E. injection E as <-. split; vm_compute; reflexivity.
Defined.

Lemma provider_is_organization_witness :
  exists pre org post,
    get_ip_info sample_interp google_net google_dns [] =
    (Ok (pre ++ u "• 📡 *Провайдер:* " ++ org ++ [nl]
           ++ u "• 🌐 *Организация:* " ++ org ++ [nl] ++ post),
     [Get google_url 10])
    /\ org = u "Google LLC".
Proof.
  exact (provider_is_organization sample_interp google_net google_dns []
           (PStr google_dns) [] google_items [Get google_url 10]
           eq_refl eq_refl eq_refl).
Defined.

Lemma remote_error_reported_witness :
  get_ip_info sample_interp discovering_net [] [] =
  (Ok (u "❌ Ошибка: Не удалось получить информацию об IP 203.0.113.7"),
   [Get ipify_url 10; Get (u "https://ipapi.co/203.0.113.7/json/") 10]).
Proof.
  exact (proj1 (remote_error_reported sample_interp discovering_net [] []
                  (PStr (u "203.0.113.7")) [Get ipify_url 10]
                  refused_payload
                  [Get ipify_url 10;
                   Get (u "https://ipapi.co/203.0.113.7/json/") 10]
                  eq_refl eq_refl eq_refl)).
Defined.

Lemma discovery_failure_is_final_witness :
  fst (get_ip_info sample_interp read_timeout_net [] [])
  = Ok (error_message (ReadTimeout (u "Read timed out.")))
  /\ exists log,
       snd (get_ip_info sample_interp read_timeout_net [] [])
       = [] ++ Get ipify_url 10 :: log
       /\ requests (Get ipify_url 10 :: log) = [ipify_url].
Proof.
  apply (discovery_failure_is_final sample_interp read_timeout_net []
           (ReadTimeout (u "Read timed out.")) [Get ipify_url 10]).
  vm_compute. reflexivity.
Defined.

(** C7 as stated fails: a connection attempt that runs out of time is a
    deadline exceeded, and the lookup answers with the connection
    message, which is not the timeout message. *)
Lemma connect_timeout_counterexample :
  is_Timeout (ConnectTimeout (u "Connection timed out.")) = true
  /\ lookup sample_interp connect_timeout_net google_dns [] =
     (Raise (ConnectTimeout (u "Connection timed out.")),
      [Get google_url 10])
  /\ fst (get_ip_info sample_interp connect_timeout_net google_dns [])
     = Ok connection_text
  /\ connection_text <> timeout_text.
Proof.
  repeat split; try (vm_compute; reflexivity).
  intros E. apply (f_equal (fun s => nth 0 s 0)) in E.
  vm_compute in E. discriminate.
Qed.

Lemma invalid_text_guidance_witness :
  handle_message sample_interp google_net (u "hello") [] =
  (Ok tt, [Reply guidance_text Markdown]).
Proof.
  exact (proj1 (invalid_text_guidance sample_interp google_net (u "hello")
                  [] eq_refl)).
Defined.

(** C9 as stated fails: on the text " 8.8.8.8" the validator returns
    false, and the handler, which strips the text first, makes the
    lookup. *)
Lemma unstripped_text_counterexample :
  is_valid_ip sample_interp (u " 8.8.8.8") = Ok false
  /\ requests (snd (handle_message sample_interp google_net
                      (u " 8.8.8.8") [])) = [google_url]
  /\ final_reply (snd (handle_message sample_interp google_net
                         (u " 8.8.8.8") [])) <> Some guidance_text.
Proof.
  repeat split; try (vm_compute; reflexivity).
  vm_compute. discriminate.
Qed.



Lemma google_reply_witness :
  exists reply,
    handle_message sample_interp google_net (u "8.8.8.8") [] =
    (Ok tt, [ Reply fetching_text None; Get google_url 10;
              Reply reply Markdown ])
    /\ Forall (fun v => str_contains v reply = true) google_values
    /\ occurrences (u "N/A") reply = 1%nat
    /\ str_contains (u "*Регион:* N/A" ++ [nl]) reply = true.
Proof.
  apply (google_reply sample_interp google_net).
  intros h. vm_compute. reflexivity.
Defined.

(** C3 as stated fails: the reply for that payload has an "N/A". *)
Lemma google_reply_counterexample :
  exists reply,
    final_reply (snd (handle_message sample_interp google_net
                        (u "8.8.8.8") [])) = Some reply
    /\ str_contains (u "N/A") reply = true.
Proof. eexists. split; vm_compute; reflexivity. Qed.

(** * Further properties *)

(** ** The validator *)

Lemma dotted4 a b c d :
  dotted [a; b; c; d] = a ++ dot :: b ++ dot :: c ++ dot :: d ++ [].
Proof. reflexivity. Qed.

Lemma dotted4_newline a b c d :
  dotted [a; b; c; d] ++ [nl]
  = a ++ dot :: b ++ dot :: c ++ dot :: d ++ [nl].
Proof.
  rewrite dotted4. rewrite <- app_assoc. simpl. f_equal. f_equal.
  rewrite <- app_assoc. simpl. f_equal. f_equal.
  rewrite <- app_assoc. simpl. f_equal. f_equal.
  rewrite <- app_assoc. reflexivity.
Qed.

Lemma four_groups {A} (P : list A -> Prop) (gs : list (list A)) :
  length gs = 4%nat -> Forall P gs ->
  exists a b c d, gs = [a; b; c; d] /\ P a /\ P b /\ P c /\ P d.
Proof.
  intros L F.
  destruct gs as [|a [|b [|c [|d [|e gs]]]]]; try discriminate L.
  inversion F as [|? ? Ha F1]; subst. inversion F1 as [|? ? Hb F2]; subst.
  inversion F2 as [|? ? Hc F3]; subst. inversion F3 as [|? ? Hd _]; subst.
  exists a, b, c, d. auto.
Qed.

(** X1: the validator raises nothing: on every string it returns true or
    false, [int] being applied only to groups of digits it can read. *)
Theorem is_valid_ip_returns rt s :
  nd_wf rt = true -> exists b, is_valid_ip rt s = Ok b.
Proof.
  intros W. destruct (is_valid_ip_total rt W s) as [E|E];
    rewrite E; eauto.
Qed.

Lemma is_valid_ip_returns_witness :
  exists b, is_valid_ip sample_interp (u "999.abc") = Ok b.
Proof.
  apply (is_valid_ip_returns sample_interp (u "999.abc")). reflexivity.
Defined.

(** X2: the validator accepts exactly the strings made of four groups
    joined by dots, each group one to three decimal digits that denote a
    number of [0,255], and the same strings followed by one newline. *)
Theorem is_valid_ip_accepts_iff rt s :
  nd_wf rt = true ->
  is_valid_ip rt s = Ok true <->
  exists gs,
    length gs = 4%nat /\ Forall (octet rt) gs
    /\ (s = dotted gs \/ s = dotted gs ++ [nl]).
Proof.
  intros W. rewrite (is_valid_ip_true_iff rt W). split.
  - intros (a & b & c & d & tail & E & Ha & Hb & Hc & Hd & T).
    exists [a; b; c; d]. split; [reflexivity|].
    split; [repeat (apply Forall_cons; [assumption|]); apply Forall_nil|].
    destruct T as [-> | ->].
    + left. rewrite dotted4. exact E.
    + right. rewrite dotted4_newline. exact E.
  - intros (gs & L & F & E).
    destruct (four_groups _ gs L F) as (a & b & c & d & -> & Ha & Hb & Hc & Hd).
    destruct E as [-> | ->].
    + exists a, b, c, d, []. rewrite dotted4. auto 10.
    + exists a, b, c, d, [nl]. rewrite dotted4_newline. auto 10.
Qed.

Lemma is_valid_ip_accepts_iff_witness :
  is_valid_ip sample_interp (u "192.168.0.1") = Ok true <->
  exists gs,
    length gs = 4%nat /\ Forall (octet sample_interp) gs
    /\ (u "192.168.0.1" = dotted gs \/ u "192.168.0.1" = dotted gs ++ [nl]).
Proof.
  apply (is_valid_ip_accepts_iff sample_interp (u "192.168.0.1")).
  reflexivity.
Defined.

(** X3: on a stripped text, which is what [handle_message] validates, the
    validator accepts exactly the four groups joined by dots: the variant
    with a newline cannot come out of [strip]. *)
Theorem stripped_text_accepted_iff rt text :
  nd_wf rt = true ->
  is_valid_ip rt (strip text) = Ok true <->
  exists gs,
    length gs = 4%nat /\ Forall (octet rt) gs /\ strip text = dotted gs.
Proof.
  intros W. rewrite (is_valid_ip_stripped rt text W). split.
  - intros (a & b & c & d & E & Ha & Hb & Hc & Hd).
    exists [a; b; c; d]. split; [reflexivity|].
    split; [repeat (apply Forall_cons; [assumption|]); apply Forall_nil|exact E].
  - intros (gs & L & F & E).
    destruct (four_groups _ gs L F) as (a & b & c & d & -> & H).
    exists a, b, c, d. auto.
Qed.

Lemma stripped_text_accepted_iff_witness :
  is_valid_ip sample_interp (strip (u " 10.0.0.1  " ++ [nl])) = Ok true <->
  exists gs,
    length gs = 4%nat /\ Forall (octet sample_interp) gs
    /\ strip (u " 10.0.0.1  " ++ [nl]) = dotted gs.
Proof.
  apply (stripped_text_accepted_iff sample_interp (u " 10.0.0.1  " ++ [nl])).
  reflexivity.
Defined.

(** X4: a string of four groups of one to three digits is refused as
    soon as one group denotes a number above 255. *)
Theorem octet_above_255_refused rt gs1 g gs2 :
  nd_wf rt = true ->
  length (gs1 ++ g :: gs2) = 4%nat ->
  Forall (digits13 rt) (gs1 ++ g :: gs2) ->
  255 < group_value rt g ->
  is_valid_ip rt (dotted (gs1 ++ g :: gs2)) = Ok false.
Proof.
  intros W L F V.
  destruct (four_groups _ _ L F) as (a & b & c & d & E & Ha & Hb & Hc & Hd).
  assert (In g [a; b; c; d]) as I by (rewrite <- E; apply in_elt).
  rewrite E, dotted4. unfold is_valid_ip.
  assert (M : re_match rt ipv4_pattern
                (a ++ dot :: b ++ dot :: c ++ dot :: d ++ []) = true).
  { apply re_match_ipv4. exists a, b, c, d, []. auto 10. }
  rewrite M, (split_shape rt), (all_octets_shape rt W) by auto.
  apply N.leb_gt in V.
  destruct I as [<-|[<-|[<-|[<-|[]]]]]; rewrite V;
    rewrite ?andb_false_r; reflexivity.
Qed.

Lemma octet_above_255_refused_witness :
  is_valid_ip sample_interp
    (dotted ([u "10"; u "0"] ++ u "256" :: [u "1"])) = Ok false.
Proof.
  apply (octet_above_255_refused sample_interp [u "10"; u "0"] (u "256")
           [u "1"]).
  - reflexivity.
  - reflexivity.
  - repeat constructor; vm_compute; intros; discriminate.
  - vm_compute. reflexivity.
Defined.

(** ** The lookup and the handlers *)


Lemma logs_app a b : logs (a ++ b) = logs a ++ logs b.
Proof.
  induction a as [|e a IH]; [reflexivity|].
  destruct e; simpl; rewrite IH; reflexivity.
Qed.

Section Further.

Variable rt : interp.

Lemma on_error_run e h :
  on_error e h = (Ok (error_message e), h ++ error_log e).
Proof.
  unfold on_error, error_message, error_log.
  destruct (is_ConnectionError e); [simpl; rewrite app_nil_r; reflexivity|].
  destruct (is_Timeout e); [simpl; rewrite app_nil_r; reflexivity|].
  reflexivity.
Qed.

Lemma error_log_quiet e :
  requests (error_log e) = [] /\ replies (error_log e) = [].
Proof.
  unfold error_log. destruct (is_ConnectionError e || is_Timeout e); auto.
Qed.

(** The run of a lookup: the steps that succeed, then the handler of the
    first exception. *)
Lemma get_ip_info_run net ip h :
  get_ip_info rt net ip h =
  match working_address rt net ip h with
  | (Raise e, h1) => (Ok (error_message e), h1 ++ error_log e)
  | (Ok addr, h1) =>
      match geolocate rt net addr h1 with
      | (Raise e, h2) => (Ok (error_message e), h2 ++ error_log e)
      | (Ok data, h2) =>
          match render rt addr data h2 with
          | (Raise e, h3) => (Ok (error_message e), h3 ++ error_log e)
          | (Ok text, h3) => (Ok text, h3)
          end
      end
  end.
Proof.
  unfold get_ip_info, try_except, lookup, bind.
  destruct (working_address rt net ip h) as [[addr|e] h1];
    [|apply on_error_run].
  destruct (geolocate rt net addr h1) as [[data|e] h2];
    [|apply on_error_run].
  destruct (render rt addr data h2) as [[text|e] h3];
    [reflexivity|apply on_error_run].
Qed.

(** Once the working address is known the lookup makes the geolocation
    request for it and no other, sends no reply and returns a text. *)
Lemma get_ip_info_after_address net ip h addr h1 :
  working_address rt net ip h = (Ok addr, h1) ->
  exists text log,
    get_ip_info rt net ip h
    = (Ok text, h1 ++ Get (ipapi_url rt addr) 10 :: log)
    /\ requests log = [] /\ replies log = [].
Proof.
  intros Hw. rewrite get_ip_info_run, Hw.
  pose proof (geolocate_events rt net addr h1) as G.
  destruct (geolocate rt net addr h1) as [[data|e] h2]; simpl in G; subst h2.
  - pose proof (render_events rt addr data
                  (h1 ++ [Get (ipapi_url rt addr) 10])) as R.
    destruct (render rt addr data _) as [[text|e] h3]; simpl in R; subst h3.
    + exists text, []. auto.
    + exists (error_message e), (error_log e).
      rewrite <- app_assoc. split; [reflexivity|apply error_log_quiet].
  - exists (error_message e), (error_log e).
    rewrite <- app_assoc. split; [reflexivity|apply error_log_quiet].
Qed.

Lemma valid_is_address s :
  is_valid_ip rt s = Ok true -> no_address s = false.
Proof.
  destruct s; [|reflexivity]. intros H. vm_compute in H. discriminate.
Qed.

(** The two branches of [handle_message]. *)
Lemma handle_message_cases net text h :
  nd_wf rt = true ->
  (is_valid_ip rt (strip text) = Ok false
   /\ handle_message rt net text h
      = (Ok tt, h ++ [Reply guidance_text Markdown]))
  \/ (is_valid_ip rt (strip text) = Ok true
      /\ exists result log,
           handle_message rt net text h
           = (Ok tt,
              h ++ Reply fetching_text None
                :: Get (ipapi_url rt (PStr (strip text))) 10
                :: log ++ [Reply result Markdown])
           /\ requests log = [] /\ replies log = []).
Proof.
  intros W. destruct (is_valid_ip_total rt W (strip text)) as [V|V].
  - right. split; [exact V|].
    destruct (get_ip_info_after_address net (strip text)
                (h ++ [Reply fetching_text None]) (PStr (strip text))
                (h ++ [Reply fetching_text None]))
      as (result & log & E & Q).
    { apply working_address_supplied. apply valid_is_address. exact V. }
    exists result, log. split; [|exact Q].
    unfold handle_message, bind, lift. rewrite V.
    unfold reply_text at 1, emit. rewrite E.
    unfold reply_text, emit. rewrite <- !app_assoc. reflexivity.
  - left. split; [exact V|].
    unfold handle_message, bind, lift. rewrite V. reflexivity.
Qed.


(** X6: the only request [handle_message] ever makes is the geolocation
    of four groups of one to three digits, each denoting a number of
    [0,255], joined by dots: nothing else of a free text reaches the
    URL, and no self-discovery is made. *)
Theorem handle_message_requests net text h :
  nd_wf rt = true ->
  requests (snd (handle_message rt net text h)) = requests h
  \/ exists gs,
       length gs = 4%nat /\ Forall (octet rt) gs
       /\ requests (snd (handle_message rt net text h))
          = requests h ++ [u "https://ipapi.co/" ++ dotted gs ++ u "/json/"].
Proof.
  intros W.
  destruct (handle_message_cases net text h W)
    as [(_ & E)|(V & result & log & E & Q & _)]; rewrite E; cbn [snd].
  - left. rewrite requests_app. apply app_nil_r.
  - right. apply (is_valid_ip_stripped rt text W) in V
      as (a & b & c & d & S & Ha & Hb & Hc & Hd).
    exists [a; b; c; d]. split; [reflexivity|].
    split; [repeat (apply Forall_cons; [assumption|]); apply Forall_nil|].
    rewrite requests_app. cbn [requests]. rewrite requests_app, Q, S.
    reflexivity.
Qed.


(** X8: of the arguments of [/ip] only the first is used, and it goes
    into the URL of the one request as it is, address or not. *)
Theorem ip_command_first_argument net a rest h :
  a <> [] ->
  requests (snd (ip_command rt net (a :: rest) h))
  = requests h ++ [u "https://ipapi.co/" ++ a ++ u "/json/"].
Proof.
  intros Ha.
  assert (N : no_address a = false) by (destruct a; [congruence|reflexivity]).
  destruct (get_ip_info_after_address net a (h ++ [Reply fetching_text None])
              (PStr a) _ (working_address_supplied rt net a _ N))
    as (text & log & E & Q & _).
  unfold ip_command, bind, reply_text, emit. rewrite E. cbn [snd].
  rewrite !requests_app. cbn [requests]. rewrite Q.
  rewrite !app_nil_r. reflexivity.
Qed.

(** X9: when the answer of the self-discovery is an object without the
    key [ip], the lookup stops there: it returns the unknown-error
    message with the text of the [KeyError], writes it to the log, and
    the self-discovery is its only request. *)
Theorem discovery_without_ip net h r items :
  net h ipify_url = Ok r ->
  json r = Ok (PDict items) ->
  dict_lookup (u "ip") items = None ->
  get_ip_info rt net [] h =
  (Ok (u "⚠️ Произошла ошибка: " ++ error_text rt (MissingKey (u "ip"))),
   h ++ [ Get ipify_url 10;
          LogError (u "Error getting IP info: "
                      ++ error_text rt (MissingKey (u "ip"))) ]).
Proof.
  intros Hn Hj Hk. rewrite get_ip_info_run.
  unfold working_address. cbn [no_address negb orb str_eqb].
  unfold bind, requests_get, lift, subscript.
  rewrite Hn, Hj, Hk. rewrite <- app_assoc. reflexivity.
Qed.

(** X10: a geolocation payload that is no object never gets rendered and
    never makes the lookup raise: the reply is the remote-error message
    when [error] is an element of the list or a part of the string, and
    the unknown-error message for the [TypeError] or the
    [AttributeError] otherwise. *)
Theorem payload_not_an_object net ip h addr h1 data h2 :
  working_address rt net ip h = (Ok addr, h1) ->
  geolocate rt net addr h1 = (Ok data, h2) ->
  (forall items, data <> PDict items) ->
  exists text log,
    get_ip_info rt net ip h = (Ok text, h2 ++ log)
    /\ match py_in rt (u "error") data with
       | Ok true => text = remote_error_text rt addr /\ log = []
       | Ok false =>
           text = u "⚠️ Произошла ошибка: "
                    ++ error_text rt (NoAttributeGet data)
           /\ logs log = [u "Error getting IP info: "
                            ++ error_text rt (NoAttributeGet data)]
       | Raise _ =>
           text = u "⚠️ Произошла ошибка: "
                    ++ error_text rt (NotContainer data)
           /\ logs log = [u "Error getting IP info: "
                            ++ error_text rt (NotContainer data)]
       end.
Proof.
  intros Hw Hg Hd. rewrite get_ip_info_run, Hw, Hg.
  unfold render, bind at 1. unfold lift at 1.
  destruct data as [| b | z | f | s | l | items];
    try (eexists _, _; split; [reflexivity|]; split; reflexivity).
  - cbn [py_in]. destruct (str_contains (u "error") s).
    + exists (remote_error_text rt addr), []. rewrite app_nil_r. auto.
    + eexists _, _. split; [reflexivity|]. split; reflexivity.
  - cbn [py_in].
    destruct (existsb _ l).
    + exists (remote_error_text rt addr), []. rewrite app_nil_r. auto.
    + eexists _, _. split; [reflexivity|]. split; reflexivity.
  - exfalso. exact (Hd items eq_refl).
Qed.

(** X11: without an address the lookup asks the self-discovery service
    and then looks up what its answer has under [ip], formatted as an
    f-string formats it. *)
Theorem discovered_address_looked_up net h r items v :
  net h ipify_url = Ok r ->
  json r = Ok (PDict items) ->
  dict_lookup (u "ip") items = Some v ->
  requests (snd (get_ip_info rt net [] h))
  = requests h
      ++ [ipify_url; u "https://ipapi.co/" ++ py_str rt v ++ u "/json/"].
Proof.
  intros Hn Hj Hk.
  assert (Hw : working_address rt net [] h = (Ok v, h ++ [Get ipify_url 10])).
  { unfold working_address. cbn [no_address negb orb str_eqb].
    unfold bind, requests_get, lift, subscript. rewrite Hn, Hj, Hk.
    reflexivity. }
  destruct (get_ip_info_after_address net [] h v _ Hw)
    as (text & log & E & Q & _).
  rewrite E. cbn [snd]. rewrite !requests_app. cbn [requests].
  rewrite Q, <- app_assoc. reflexivity.
Qed.

(** X12: the reply for a payload depends on the eight fields it shows
    and on nothing else of the payload: two payloads without [error]
    that agree on these fields get the same reply. *)
Theorem other_fields_ignored net ip h addr h1 items h2
  net' ip' h' addr' h1' items' h2' :
  working_address rt net ip h = (Ok addr, h1) ->
  geolocate rt net addr h1 = (Ok (PDict items), h2) ->
  dict_lookup (u "error") items = None ->
  working_address rt net' ip' h' = (Ok addr', h1') ->
  geolocate rt net' addr' h1' = (Ok (PDict items'), h2') ->
  dict_lookup (u "error") items' = None ->
  (forall k, In k geo_fields ->
             dict_lookup (u k) items' = dict_lookup (u k) items) ->
  fst (get_ip_info rt net' ip' h') = fst (get_ip_info rt net ip h).
Proof.
  intros Hw Hg He Hw' Hg' He' A.
  rewrite (get_ip_info_rendered rt net _ _ _ _ _ _ Hw Hg He).
  rewrite (get_ip_info_rendered rt net' _ _ _ _ _ _ Hw' Hg' He').
  assert (S : forall k, In k geo_fields -> slot rt items' k = slot rt items k).
  { intros k Hk. unfold slot. rewrite (A k Hk). reflexivity. }
  cbn [fst]. rewrite !S by (simpl; tauto). reflexivity.
Qed.

(** X13: the lookup writes to the error log only for an exception that
    is neither a connection error nor a timeout, and then one line with
    [str(e)]. *)
Theorem errors_logged net ip h :
  logs (snd (get_ip_info rt net ip h)) =
  logs h ++
  match lookup rt net ip h with
  | (Ok _, _) => []
  | (Raise e, _) =>
      if is_ConnectionError e || is_Timeout e then []
      else [u "Error getting IP info: " ++ exn_str e]
  end.
Proof.
  assert (L : logs (snd (lookup rt net ip h)) = logs h).
  { unfold lookup, bind.
    destruct (working_address_events rt net ip h) as (n1 & E1 & C).
    assert (Q1 : logs n1 = [])
      by (destruct C as [(_ & -> & _)|(_ & ->)]; reflexivity).
    destruct (working_address rt net ip h) as [[addr|e] h1];
      simpl in E1; subst h1; cbn [snd];
      [|rewrite logs_app, Q1; apply app_nil_r].
    pose proof (geolocate_events rt net addr (h ++ n1)) as G.
    destruct (geolocate rt net addr (h ++ n1)) as [[data|e] h2];
      simpl in G; subst h2;
      [|cbn [snd]; rewrite !logs_app, Q1; simpl; rewrite !app_nil_r;
        reflexivity].
    rewrite render_events, !logs_app, Q1. simpl. rewrite !app_nil_r.
    reflexivity. }
  unfold get_ip_info, try_except.
  destruct (lookup rt net ip h) as [[text|e] h1]; cbn [snd] in *.
  - rewrite L, app_nil_r. reflexivity.
  - rewrite on_error_run. cbn [snd]. rewrite logs_app, L.
    unfold error_log. destruct (is_ConnectionError e || is_Timeout e);
      reflexivity.
Qed.

End Further.


Lemma handle_message_requests_witness :
  requests (snd (handle_message sample_interp google_net (u "8.8.8.8") []))
  = requests []
  \/ exists gs,
       length gs = 4%nat /\ Forall (octet sample_interp) gs
       /\ requests (snd (handle_message sample_interp google_net
                           (u "8.8.8.8") []))
          = requests [] ++ [u "https://ipapi.co/" ++ dotted gs ++ u "/json/"].
Proof.
  apply (handle_message_requests sample_interp google_net (u "8.8.8.8") []).
  reflexivity.
Defined.

Lemma ip_command_first_argument_witness :
  requests (snd (ip_command sample_interp refusing_net
                   (u "../status" :: [u "ignored"]) []))
  = requests [] ++ [u "https://ipapi.co/" ++ u "../status" ++ u "/json/"].
Proof.
  apply (ip_command_first_argument sample_interp refusing_net
           (u "../status") [u "ignored"] []).
  vm_compute. discriminate.
Defined.

Lemma discovery_without_ip_witness :
  get_ip_info sample_interp no_ip_net [] [] =
  (Ok (u "⚠️ Произошла ошибка: "
         ++ error_text sample_interp (MissingKey (u "ip"))),
   [] ++ [ Get ipify_url 10;
           LogError (u "Error getting IP info: "
                       ++ error_text sample_interp (MissingKey (u "ip"))) ]).
Proof.
  apply (discovery_without_ip sample_interp no_ip_net []
           {| json := Ok (PDict [ (u "origin", PStr (u "203.0.113.7")) ]) |}
           [ (u "origin", PStr (u "203.0.113.7")) ]).
  - vm_compute. reflexivity.
  - reflexivity.
  - vm_compute. reflexivity.
Defined.

Lemma payload_not_an_object_witness :
  exists text log,
    get_ip_info sample_interp list_payload_net google_dns []
    = (Ok text, [Get google_url 10] ++ log)
    /\ match py_in sample_interp (u "error") (PList [PStr (u "unexpected")])
       with
       | Ok true =>
           text = remote_error_text sample_interp (PStr google_dns)
           /\ log = []
       | Ok false =>
           text = u "⚠️ Произошла ошибка: "
                    ++ error_text sample_interp
                         (NoAttributeGet (PList [PStr (u "unexpected")]))
           /\ logs log = [u "Error getting IP info: "
                            ++ error_text sample_interp
                                 (NoAttributeGet
                                    (PList [PStr (u "unexpected")]))]
       | Raise _ =>
           text = u "⚠️ Произошла ошибка: "
                    ++ error_text sample_interp
                         (NotContainer (PList [PStr (u "unexpected")]))
           /\ logs log = [u "Error getting IP info: "
                            ++ error_text sample_interp
                                 (NotContainer
                                    (PList [PStr (u "unexpected")]))]
       end.
Proof.
  apply (payload_not_an_object sample_interp list_payload_net google_dns []
           (PStr google_dns) [] (PList [PStr (u "unexpected")])
           [Get google_url 10]).
  - vm_compute. reflexivity.
  - vm_compute. reflexivity.
  - intros items. discriminate.
Defined.

Lemma discovered_address_looked_up_witness :
  requests (snd (get_ip_info sample_interp discovering_net [] []))
  = requests []
      ++ [ipify_url;
          u "https://ipapi.co/"
            ++ py_str sample_interp (PStr (u "203.0.113.7")) ++ u "/json/"].
Proof.
  apply (discovered_address_looked_up sample_interp discovering_net []
           {| json := Ok (PDict [ (u "ip", PStr (u "203.0.113.7")) ]) |}
           [ (u "ip", PStr (u "203.0.113.7")) ]).
  - vm_compute. reflexivity.
  - reflexivity.
  - vm_compute. reflexivity.
Defined.

Lemma other_fields_ignored_witness :
  fst (get_ip_info sample_interp verbose_net google_dns [])
  = fst (get_ip_info sample_interp google_net google_dns []).
Proof.
  apply (other_fields_ignored sample_interp
           google_net google_dns [] (PStr google_dns) [] google_items
           [Get google_url 10]
           verbose_net google_dns [] (PStr google_dns) [] google_items_more
           [Get google_url 10]).
  - vm_compute. reflexivity.
  - vm_compute. reflexivity.
  - vm_compute. reflexivity.
  - vm_compute. reflexivity.
  - vm_compute. reflexivity.
  - vm_compute. reflexivity.
  - intros k Hk. simpl in Hk.
    destruct Hk as [<-|[<-|[<-|[<-|[<-|[<-|[<-|[<-|[]]]]]]]]];
      vm_compute; reflexivity.
Defined.
